(** * Stem Lab backend: a shallow embedding of [backend/server.py]

    The server keeps the table of pending verification codes, the
    account table (with its copy in [accounts.json]), the library
    directory and the cache of separation models.  Every handler is
    embedded as a function on the state it touches; a raised exception
    is a value of [result], and what a handler had already written when
    it raised stays written, as in Python.

    Conventions.
    - A Python [str] is a [string] (its UTF-8 bytes).  [strip],
      [lower] and [isspace] are those of Python on ASCII text
      ([Str.is_ascii]); the statements that depend on them are about
      ASCII text and say so.
    - A path is the string it is built from; [Path] reads it as
      [pathlib] does on POSIX.
    - A naive [datetime] is an integer number of microseconds ([Z]):
      adding a [timedelta] is addition and [>] is the order of [Z].
    - Library functions the server only calls (ISO printing of a
      datetime, SHA-256, base64, ffmpeg, Spleeter) are parameters of the
      sections that use them; nothing is assumed about them. *)

From stdpp Require Import base strings list gmap sorting.
From Stdlib Require Import ZArith Lia Ascii Strings.Byte.

Set Default Proof Using "Type".
Set Warnings "-register-all".
Local Open Scope Z_scope.

(** ** Exceptions *)

Inductive exception :=
  | HTTPException (status_code : Z) (detail : string)
  | Uncaught (name : string).

Inductive result (A : Type) :=
  | Ok (a : A)
  | Raise (e : exception).
Arguments Ok {A} a.
Arguments Raise {A} e.


(** A computation on a state [S] that may raise; the state it returns is
    the one reached when it returned or raised. *)
Definition M (S A : Type) : Type := S → result A * S.

Definition ret {S A} (a : A) : M S A := λ s, (Ok a, s).
Definition raise {S A} (e : exception) : M S A := λ s, (Raise e, s).
Definition bind {S A B} (m : M S A) (k : A → M S B) : M S B :=
  λ s, match m s with
       | (Ok a, s') => k a s'
       | (Raise e, s') => (Raise e, s')
       end.
Definition get_state {S} : M S S := λ s, (Ok s, s).
Definition put_state {S} (s' : S) : M S unit := λ _, (Ok tt, s').
Definition modify {S} (f : S → S) : M S unit := λ s, (Ok tt, f s).

Global Instance M_ret {S} : MRet (M S) := λ A, ret.
Global Instance M_bind {S} : MBind (M S) := λ A B k m, bind m k.

(** ** The string methods the server calls *)

Module Str.

(** [str.isspace] on an ASCII character: tab to carriage return, the
    four separators 28-31 and the space. *)
Definition isspace (c : ascii) : bool :=
  let n := nat_of_ascii c in
  ((9 <=? n)%nat && (n <=? 13)%nat) || ((28 <=? n)%nat && (n <=? 32)%nat).

Fixpoint lstrip (s : string) : string :=
  match s with
  | EmptyString => EmptyString
  | String c s' => if isspace c then lstrip s' else s
  end.

Definition rstrip (s : string) : string :=
  String.rev (lstrip (String.rev s)).

Definition strip (s : string) : string := rstrip (lstrip s).

Definition lower_char (c : ascii) : ascii :=
  let n := nat_of_ascii c in
  if ((65 <=? n)%nat && (n <=? 90)%nat) then ascii_of_nat (n + 32) else c.

Fixpoint lower (s : string) : string :=
  match s with
  | EmptyString => EmptyString
  | String c s' => String (lower_char c) (lower s')
  end.

(** [s.isascii()] *)
Fixpoint is_ascii (s : string) : bool :=
  match s with
  | EmptyString => true
  | String c s' => (nat_of_ascii c <? 128)%nat && is_ascii s'
  end.

Definition startswith (s p : string) : bool := String.prefix p s.

(** [sub in s] *)
Definition contains (s sub : string) : bool :=
  match String.index 0 sub s with Some _ => true | None => false end.

(** [s.partition(sep)] for a one-character separator: the text before
    the first [sep] and the text after it (the whole of [s] and the
    empty string when there is none). *)
Fixpoint partition (sep : ascii) (s : string) : string * string :=
  match s with
  | EmptyString => (EmptyString, EmptyString)
  | String c s' =>
      if Ascii.eqb c sep then (EmptyString, s')
      else let '(a, b) := partition sep s' in (String c a, b)
  end.

(** [s.rfind(".")], as the position counted from the left. *)
Fixpoint rfind_dot (s : string) : option nat :=
  match s with
  | EmptyString => None
  | String c s' =>
      match rfind_dot s' with
      | Some i => Some (S i)
      | None => if Ascii.eqb c "." then Some O else None
      end
  end.

(** The decimal digit [d mod 10] and the [k] low decimal digits of
    [n], most significant first. *)
Definition digit (d : Z) : ascii := ascii_of_nat (48 + Z.to_nat (d mod 10)).

Fixpoint digits (k : nat) (n : Z) : string :=
  match k with
  | O => EmptyString
  | S k' => digits k' (n / 10) +:+ String (digit n) EmptyString
  end.

End Str.

(** ** Account store and verification-code cache *)

Definition datetime := Z.

(** [timedelta(minutes=10)], in microseconds. *)
Definition CODE_TTL : Z := 10 * 60 * 1000000.

(** A pending code.  The dictionary the server stores holds the code and
    the text [isoformat() + "Z"] of the expiry; the only reader strips
    the ["Z"] and parses the text back with [fromisoformat], which
    returns the datetime that was printed, so the entry holds that
    datetime. *)
Record entry := Entry { code : string; expires : datetime }.

Global Instance entry_eq_dec : EqDecision entry.
Proof. solve_decision. Defined.

Definition normalize_email (email : string) : string :=
  Str.lower (Str.strip email).

Definition store_verification_code (now : datetime) (email code : string)
    (PENDING_CODES : gmap string entry) : gmap string entry :=
  <[normalize_email email := Entry code (now + CODE_TTL)]> PENDING_CODES.

Definition no_code_requested : exception :=
  HTTPException 400 "No verification code requested for this email.".
Definition code_expired : exception :=
  HTTPException 400 "Verification code has expired.".
Definition invalid_code : exception :=
  HTTPException 400 "Invalid verification code.".

Definition pop_verification_code (now : datetime) (email code' : string)
    : M (gmap string entry) entry :=
  λ PENDING_CODES,
    match PENDING_CODES !! normalize_email email with
    | None => (Raise no_code_requested, PENDING_CODES)
    | Some e =>
        if now >? expires e then (Raise code_expired, PENDING_CODES)
        else if negb (String.eqb (code e) code')
             then (Raise invalid_code, PENDING_CODES)
        else (Ok e, delete (normalize_email email) PENDING_CODES)
    end.

(** [f"{random.randint(0, 999999):06d}"]; [r] is the number drawn, and
    for a number of that range the format prints exactly six digits. *)
Definition generate_code (r : Z) : string := Str.digits 6 r.

(** An account record and the account table, [Dict[str, Dict[str, str]]]. *)
Abbreviation account := (gmap string string).

(** The three module-level objects of the account flow: the pending
    codes, the table [accounts], and what [accounts.json] holds ([None]
    until [save_accounts] has written it). *)
Record auth := Auth {
  PENDING_CODES : gmap string entry;
  accounts : gmap string account;
  ACCOUNTS_PATH : option (gmap string account)
}.

Definition with_pending {A} (m : M (gmap string entry) A) : M auth A :=
  λ st, let '(r, p) := m (PENDING_CODES st) in
        (r, Auth p (accounts st) (ACCOUNTS_PATH st)).

(** [json.dumps(accounts)] written over the whole file. *)
Definition save_accounts (table : gmap string account) : M auth unit :=
  modify (λ st, Auth (PENDING_CODES st) (accounts st) (Some table)).

(** [d.get(k) or ""] on a [Dict[str, str]]. *)
Definition get_or_empty (d : gmap string string) (k : string) : string :=
  default EmptyString (d !! k).

(** [bool(s)] for a string. *)
Definition nonempty (s : string) : bool := negb (String.eqb s EmptyString).

Section account_flow.

(** [datetime.isoformat] and [hashlib.sha256(..).hexdigest()]. *)
Variable isoformat : datetime → string.
Variable sha256_hexdigest : string → string.

Definition hash_password (password : string) : string :=
  sha256_hexdigest password.

Definition record_account (utcnow : datetime)
    (email name password_hash : string) : M auth account :=
  let email_key := normalize_email email in
  let now := isoformat utcnow +:+ "Z" in
  st ← get_state;
  let account0 : account := default ∅ (accounts st !! email_key) in
  let created_at :=
    match account0 !! "createdAt" with
    | Some c => if nonempty c then c else now
    | None => now
    end in
  let account1 : account :=
    <["updatedAt" := now]> (<["createdAt" := created_at]>
      (<["passwordHash" := password_hash]> (<["name" := name]>
        (<["email" := email]> account0)))) in
  let table := <[email_key := account1]> (accounts st) in
  put_state (Auth (PENDING_CODES st) table (ACCOUNTS_PATH st));;
  save_accounts table;;
  mret account1.

(** [POST /api/auth/request-code].  [r] is the number [generate_code]
    draws.  [send_verification_email] catches every exception of the
    mail transport and otherwise only prints, so it changes none of
    the three objects and is left out. *)
Definition request_code (utcnow : datetime) (r : Z)
    (payload : gmap string string) : M auth bool :=
  let email := Str.strip (get_or_empty payload "email") in
  if negb (nonempty email)
  then raise (HTTPException 400 "Email is required.")
  else
    let code := generate_code r in
    with_pending (modify (store_verification_code utcnow email code));;
    mret true.

(** The body of the response of [verify_code]; an absent key prints as
    [null]. *)
Record summary := Summary {
  s_email : string;
  s_name : string;
  s_createdAt : option string;
  s_updatedAt : option string
}.

(** [POST /api/auth/verify].  The clock is read twice: [t_pop] in
    [pop_verification_code] and [t_rec] in [record_account].  The record
    [record_account] returns always has its ["email"], so
    [account["email"]] does not raise. *)
Definition verify_code (t_pop t_rec : datetime)
    (payload : gmap string string) : M auth summary :=
  let email := Str.strip (get_or_empty payload "email") in
  let code := Str.strip (get_or_empty payload "code") in
  let password := get_or_empty payload "password" in
  let password_hash := payload !! "passwordHash" in
  let name := Str.strip (get_or_empty payload "name") in
  if negb (nonempty email) || negb (nonempty code)
     || negb (nonempty password || nonempty (default EmptyString password_hash))
  then raise (HTTPException 400 "Email, code, and password are required.")
  else
    _ ← with_pending (pop_verification_code t_pop email code);
    let password_hash :=
      if nonempty (default EmptyString password_hash)
      then default EmptyString password_hash
      else hash_password password in
    account1 ← record_account t_rec email name password_hash;
    mret (Summary (default EmptyString (account1 !! "email"))
                  (default EmptyString (account1 !! "name"))
                  (account1 !! "createdAt")
                  (account1 !! "updatedAt")).

End account_flow.

(** ** JSON values and Python dictionaries *)

(** What [json.loads] returns.  An object is the list of its items in
    insertion order, as a Python [dict] keeps them.  Numbers are the
    integers: the server only tests a number for truth and for not
    being a string or an object, where a float does as an integer
    does. *)
Inductive json :=
  | JNull
  | JBool (b : bool)
  | JNum (n : Z)
  | JStr (s : string)
  | JArr (items : list json)
  | JObj (items : list (string * json)).

(** [bool(v)] *)
Definition truthy (v : json) : bool :=
  match v with
  | JNull => false
  | JBool b => b
  | JNum n => negb (n =? 0)
  | JStr s => nonempty s
  | JArr l => match l with [] => false | _ => true end
  | JObj l => match l with [] => false | _ => true end
  end.

Definition is_str (v : json) : bool :=
  match v with JStr _ => true | _ => false end.

Module Dict.
Section dict.
Context {V : Type}.

(** [d.get(k)] *)
Fixpoint get (d : list (string * V)) (k : string) : option V :=
  match d with
  | [] => None
  | (k', v) :: d' => if String.eqb k' k then Some v else get d' k
  end.

(** [d[k] = v]: the value is replaced where the key stands, a new
    key goes to the end. *)
Fixpoint set (d : list (string * V)) (k : string) (v : V)
    : list (string * V) :=
  match d with
  | [] => [(k, v)]
  | (k', v') :: d' =>
      if String.eqb k' k then (k', v) :: d' else (k', v') :: set d' k v
  end.

(** [list(d.keys())] *)
Definition keys (d : list (string * V)) : list string := d.*1.
End dict.
End Dict.

(** What a call into a library returned, or the text of the exception
    it raised. *)
Inductive outcome (A : Type) :=
  | Done (a : A)
  | Failed (msg : string).
Arguments Done {A} a.
Arguments Failed {A} msg.

Abbreviation bytes := (list byte).

(** ** Paths *)

Fixpoint all_chars (p : ascii → bool) (s : string) : bool :=
  match s with
  | EmptyString => true
  | String c s' => p c && all_chars p s'
  end.

Module Path.

(** [p.split("/")] *)
Fixpoint split (p : string) : list string :=
  match p with
  | EmptyString => [EmptyString]
  | String c p' =>
      if Ascii.eqb c "/" then EmptyString :: split p'
      else match split p' with
           | [] => [String c EmptyString]
           | x :: l => String c x :: l
           end
  end.

(** The components of [PurePosixPath(p)] after its root: the texts
    between separators, less the empty ones and [.]. *)
Definition parts (p : string) : list string :=
  List.filter (λ x, nonempty x && negb (String.eqb x ".")) (split p).

(** The root: two leading separators are kept, one or more than two are
    one. *)
Definition root (p : string) : string :=
  if Str.startswith p "//" && negb (Str.startswith p "///") then "//"
  else if Str.startswith p "/" then "/"
  else EmptyString.

(** [str(PurePosixPath(p))], for a path with a component. *)
Definition str (p : string) : string :=
  root p +:+ String.concat "/" (parts p).

(** [PurePosixPath(p).name]: the last component, if any. *)
Definition name (p : string) : string := default EmptyString (last (parts p)).

(** The stem and the suffix of a name, cut at its last dot when that
    dot is neither its first nor its last character. *)
Definition stem_of (name : string) : string :=
  match Str.rfind_dot name with
  | Some i =>
      if (0 <? i)%nat && (i <? String.length name - 1)%nat
      then String.substring 0 i name else name
  | None => name
  end.

Definition suffix_of (name : string) : string :=
  match Str.rfind_dot name with
  | Some i =>
      if (0 <? i)%nat && (i <? String.length name - 1)%nat
      then String.substring i (String.length name - i) name else EmptyString
  | None => EmptyString
  end.

End Path.

(** [PurePath(p).stem] and [PurePath(p).suffix] *)
Definition path_stem (p : string) : string := Path.stem_of (Path.name p).
Definition path_suffix (p : string) : string := Path.suffix_of (Path.name p).

(** ** Library store *)

(** A session directory [library/<id>].  [meta_json] is [meta.json] by
    what [json.loads(read_text())] makes of it: [Some (Some j)] parses to
    [j], [Some None] is a file on which reading or parsing raises, [None]
    is no file.  [wavs] holds the files matched by [*.wav], by file name.
    [bundle_zip] is the archive, by the stem files it packed.  Stem names
    are final path components, so the three kinds of file never share a
    name, and file-system calls do not fail. *)
Record session_dir := SessionDir {
  meta_json : option (option json);
  wavs : gmap string bytes;
  bundle_zip : option (gmap string bytes)
}.

Definition empty_dir : session_dir := SessionDir None ∅ None.

Abbreviation library := (gmap string session_dir).

Definition session_not_found : exception :=
  HTTPException 404 "Session not found.".

Section library_store.

Variable isoformat : datetime → string.
(** [base64.b64encode(data).decode("ascii")] and [base64.b64decode]. *)
Variable b64encode : bytes → string.
Variable b64decode : string → outcome bytes.

Definition encode_audio_file (data : bytes) : string :=
  "data:audio/wav;base64," +:+ b64encode data.

Definition decode_data_url (value : string) : outcome bytes :=
  let value := Str.strip value in
  if Str.startswith value "data:" then
    let '(header, base64_part) := Str.partition "," value in
    if negb (Str.contains header ";base64")
    then Failed "Unsupported data URL format"
    else b64decode base64_part
  else b64decode value.

(** [item_dir.mkdir(parents=True, exist_ok=True)] *)
Definition mkdir (item_id : string) : M library unit :=
  modify (λ lib : library,
    match lib !! item_id with
    | Some _ => lib
    | None => <[item_id := empty_dir]> lib
    end).

Definition in_dir (item_id : string) (f : session_dir → session_dir)
    : M library unit :=
  modify (λ lib : library, alter f item_id lib).

Definition write_bytes (item_id file : string) (data : bytes)
    : M library unit :=
  in_dir item_id
    (λ d, SessionDir (meta_json d) (<[file := data]> (wavs d)) (bundle_zip d)).

(** The loop of [save_library] over [stems.items()]. *)
Fixpoint write_stems (item_id : string) (stems : list (string * json))
    : M library unit :=
  match stems with
  | [] => mret tt
  | (name, value) :: rest =>
      match value with
      | JStr text =>
          match decode_data_url text with
          | Failed exc =>
              raise (HTTPException 400
                ("Could not decode stem '" +:+ name +:+ "': " +:+ exc))
          | Done data =>
              write_bytes item_id (name +:+ ".wav") data;;
              write_stems item_id rest
          end
      | _ => write_stems item_id rest
      end
  end.

(** [POST /api/library].  [body] is what [request.json()] made of the
    request, [item_id] is [uuid4().hex]. *)
Definition save_library (utcnow : datetime) (item_id : string)
    (body : outcome json) : M library json :=
  match body with
  | Failed exc => raise (HTTPException 400 ("Invalid JSON payload: " +:+ exc))
  | Done (JObj payload) =>
      match Dict.get payload "stems" with
      | Some (JObj ((_ :: _) as stems)) =>
          let title :=
            match Dict.get payload "title" with
            | Some t => if truthy t then t else JStr "Session"
            | None => JStr "Session"
            end in
          mkdir item_id;;
          write_stems item_id stems;;
          let metadata := JObj [
            ("id", JStr item_id);
            ("title", title);
            ("stems", JArr (JStr <$> Dict.keys stems));
            ("createdAt", JStr (isoformat utcnow +:+ "Z"));
            ("bundle", JStr ("/api/library/" +:+ item_id +:+ "/bundle"))
          ] in
          in_dir item_id
            (λ d, SessionDir (Some (Some metadata)) (wavs d) (bundle_zip d));;
          in_dir item_id
            (λ d, SessionDir (meta_json d) (wavs d) (Some (wavs d)));;
          mret metadata
      | _ => raise (HTTPException 400 "Payload must include stems")
      end
  | Done _ => raise (Uncaught "AttributeError")
  end.

(** [GET /api/library/{item_id}] *)
Definition get_library_item (item_id : string) : M library json :=
  lib ← get_state;
  match (lib : library) !! item_id ≫= meta_json with
  | None => raise session_not_found
  | Some None => raise (Uncaught "JSONDecodeError")
  | Some (Some metadata) =>
      let stems :=
        foldl (λ acc '(file, data),
                 Dict.set acc (path_stem file) (JStr (encode_audio_file data)))
              [] (map_to_list (wavs (default empty_dir (lib !! item_id)))) in
      match metadata with
      | JObj items => mret (JObj (Dict.set items "stems" (JObj stems)))
      | _ => raise (Uncaught "TypeError")
      end
  end.

End library_store.

(** Exceptions without a state. *)
Global Instance result_ret : MRet result := λ A, Ok.
Global Instance result_bind : MBind result := λ A B k r,
  match r with Ok a => k a | Raise e => Raise e end.
Global Instance result_fmap : FMap result := λ A B f r,
  match r with Ok a => Ok (f a) | Raise e => Raise e end.

Section listing.

(** Python's [a < b] for two values that are not both strings (it
    raises [TypeError] for most pairs). *)
Variable py_lt_mixed : json → json → result bool.

(** [a < b]; two strings compare by code points, which is the order of
    their UTF-8 bytes. *)
Definition py_lt (a b : json) : result bool :=
  match a, b with
  | JStr s, JStr t => Ok (String.ltb s t)
  | _, _ => py_lt_mixed a b
  end.

(** [lambda item: item.get("createdAt", "")] *)
Definition sort_key (item : json) : result json :=
  match item with
  | JObj items => Ok (default (JStr EmptyString) (Dict.get items "createdAt"))
  | _ => Raise (Uncaught "AttributeError")
  end.

(** [list.sort(key=...)]: the keys are computed first, and the sort is
    stable and compares keys with [<] only.  The model inserts each
    item before the first item already placed whose key is not smaller;
    which pairs CPython compares is its own business, and both give
    the same list when no comparison raises. *)
Fixpoint insert_by_key (x : json * json) (l : list (json * json))
    : result (list (json * json)) :=
  match l with
  | [] => Ok [x]
  | y :: l' =>
      smaller ← py_lt y.1 x.1;
      if (smaller : bool) then (y ::.) <$> insert_by_key x l'
      else Ok (x :: y :: l')
  end.

Fixpoint sort_by_key (l : list (json * json)) : result (list (json * json)) :=
  match l with
  | [] => Ok []
  | x :: l' => sort_by_key l' ≫= insert_by_key x
  end.

Fixpoint with_keys (items : list json) : result (list (json * json)) :=
  match items with
  | [] => Ok []
  | item :: rest =>
      k ← sort_key item;
      ((k, item) ::.) <$> with_keys rest
  end.

(** The loop over [LIBRARY_ROOT.glob("*/meta.json")]: the records that
    parse, in the order of the scan. *)
Definition parsed_metadata (lib : library) : list json :=
  omap (λ kv : string * session_dir, meta_json kv.2 ≫= id) (map_to_list lib).

(** [GET /api/library]; the value is the list under ["items"]. *)
Definition list_library (lib : library) : result (list json) :=
  keyed ← with_keys (parsed_metadata lib);
  sorted ← sort_by_key keyed;
  Ok (sorted.*2).

End listing.

(** ** Separation orchestrator *)

Definition VIDEO_EXTENSIONS : list string :=
  [".mp4"; ".mov"; ".m4v"; ".mkv"; ".webm"; ".avi"; ".mpg"; ".mpeg"].
Definition DEFAULT_MODEL : string := "spleeter:4stems".
Definition EXPECTED_STEMS : list string := ["vocals"; "drums"; "bass"; "other"].

(** The request's temporary directory, by path below it. *)
Inductive node :=
  | File (data : bytes)
  | Directory.

Abbreviation scratch := (gmap string node).

Definition join (dir name : string) : string := dir +:+ "/" +:+ name.

(** The calls into the two collaborators, in the order they are made. *)
Inductive call :=
  | Ffmpeg (input output : string)
  | Spleeter (model source : string).

Global Instance call_eq_dec : EqDecision call.
Proof. solve_decision. Defined.

Record orchestrator := Orchestrator {
  separator_cache : gset string;
  calls : list call
}.

Definition log (c : call) : M orchestrator unit :=
  modify (λ st, Orchestrator (separator_cache st) (calls st ++ [c])).

Definition is_video (filename : string) : bool :=
  bool_decide (Str.lower (path_suffix filename) ∈ VIDEO_EXTENSIONS).

Section separation.

Variable b64encode : bytes → string.
(** [ffmpeg.input(path).output(..).run()] on the file at [path]: the
    audio it wrote, or the text of [ffmpeg.Error]. *)
Variable ffmpeg_run : string → bytes → outcome bytes.
(** [Separator(model)], and [separate_to_file] of a model on a source
    path: the directory as it left it, or the text of the exception. *)
Variable Separator : string → outcome unit.
Variable separate_to_file : string → string → scratch → outcome scratch.
(** [destination.open("wb")] and the copy of the upload for a path that
    leaves the temporary directory: done, or the name of the
    exception. *)
Variable open_elsewhere : string → bytes → outcome unit.

Definition get_separator (model : string) : M orchestrator unit :=
  st ← get_state;
  if bool_decide (model ∈ separator_cache st) then mret tt
  else
    match Separator model with
    | Failed exc =>
        raise (HTTPException 500
          ("Could not initialize Spleeter model '" +:+ model +:+ "': " +:+ exc))
    | Done _ =>
        put_state (Orchestrator ({[model]} ∪ separator_cache st) (calls st))
    end.

(** The loop over [EXPECTED_STEMS]. *)
Fixpoint collect (tmp : scratch) (stems_dir : string) (names : list string)
    : result (list (string * json)) :=
  match names with
  | [] => Ok []
  | stem_name :: rest =>
      match tmp !! join stems_dir (stem_name +:+ ".wav") with
      | None => collect tmp stems_dir rest
      | Some Directory => Raise (Uncaught "IsADirectoryError")
      | Some (File data) =>
          ((stem_name, JStr (encode_audio_file b64encode data)) ::.)
            <$> collect tmp stems_dir rest
      end
  end.

(** The end of [separate], once the model has written its files:
    find the stems directory, collect, and build the response. *)
Definition respond (model filename : string) (tmp : scratch) : result json :=
  let stems_dir := path_stem filename in
  match tmp !! stems_dir with
  | None => Raise (HTTPException 500 "Stem service did not produce any files.")
  | Some _ =>
      match collect tmp stems_dir EXPECTED_STEMS with
      | Raise e => Raise e
      | Ok [] => Raise (HTTPException 500 "No stems were generated by Spleeter.")
      | Ok stems => Ok (JObj [("model", JStr model); ("stems", JObj stems)])
      end
  end.

(** Where [tmp_dir_path / filename] points.  The temporary directory is
    new and empty, so a path that stays below it is the directory
    itself, a name directly in it, or a path through a directory that
    is not there; a path that is absolute or starts with [..] leaves
    it. *)
Inductive destination :=
  | Child (name : string)
  | Elsewhere (path : string)
  | MissingParent
  | TheDirectory
  | NullByte.

Definition place (filename : string) : destination :=
  if negb (all_chars (λ c, negb (Ascii.eqb c Ascii.zero)) filename)
  then NullByte
  else if Str.startswith filename "/" then Elsewhere (Path.str filename)
  else
    match Path.parts filename with
    | [] => TheDirectory
    | name :: rest =>
        if String.eqb name ".." then Elsewhere (Path.str filename)
        else match rest with [] => Child name | _ => MissingParent end
    end.

(** The copy of the upload to [input_path]: the path, as the
    collaborators are given it (from the temporary directory, or from
    the root when [filename] is absolute), and the temporary directory
    with the file if it is there; or the exception of
    [destination.open("wb")]. *)
Definition input_file (filename : string) (upload : bytes)
    : result (string * scratch) :=
  match place filename with
  | Child name => Ok (name, {[name := File upload]})
  | Elsewhere path =>
      match open_elsewhere path upload with
      | Done _ => Ok (path, ∅)
      | Failed exc => Raise (Uncaught exc)
      end
  | MissingParent => Raise (Uncaught "FileNotFoundError")
  | TheDirectory => Raise (Uncaught "IsADirectoryError")
  | NullByte => Raise (Uncaught "ValueError")
  end.

(** The copy and the classification step: the file handed to the model
    and the directory it is handed in.  [input_path] ends with the last
    component of [filename], so its suffix and stem are those of
    [filename]. *)
Definition extract_audio (filename : string) (upload : bytes)
    : M orchestrator (string * scratch) :=
  match input_file filename upload with
  | Raise exc => raise exc
  | Ok (input_path, tmp) =>
      if is_video filename then
        let audio_path := path_stem filename +:+ "_audio.wav" in
        log (Ffmpeg input_path audio_path);;
        match ffmpeg_run input_path upload with
        | Failed exc =>
            raise (HTTPException 500
              ("Could not extract audio from video: " +:+ exc))
        | Done wav => mret (audio_path, <[audio_path := File wav]> tmp)
        end
      else mret (input_path, tmp)
  end.

(** [POST /api/separate].  [filename] is the empty string when the
    upload has none; [model] is the form field, if sent. *)
Definition separate (filename : string) (upload : bytes)
    (model : option string) : M orchestrator json :=
  let model := default DEFAULT_MODEL model in
  if negb (nonempty filename)
  then raise (HTTPException 400 "Upload must include a filename.")
  else
    '(process_source, tmp) ← extract_audio filename upload;
    get_separator model;;
    log (Spleeter model process_source);;
    match separate_to_file model process_source tmp with
    | Failed exc =>
        raise (HTTPException 500 ("Stem separation failed: " +:+ exc))
    | Done tmp =>
        match respond model filename tmp with
        | Raise e => raise e
        | Ok response => mret response
        end
    end.

End separation.

(** ** The rest of the server *)

(** [load_accounts], on what [accounts.json] is at start-up: no file,
    a file on which reading or [json.loads] raises, or a file that
    parses to a table. *)
Definition load_accounts (file : option (option (gmap string account)))
    : gmap string account :=
  match file with
  | Some (Some table) => table
  | Some None => ∅
  | None => ∅
  end.

(** What [accounts.json] is once [save_accounts] has written it: the
    text [json.dumps] prints for a table of strings parses back to the
    table. *)
Definition accounts_file (st : auth) : option (option (gmap string account)) :=
  Some <$> ACCOUNTS_PATH st.

(** The value of a string of decimal digits, read from the left,
    starting from [acc]. *)
Fixpoint decimal (acc : Z) (s : string) : Z :=
  match s with
  | EmptyString => acc
  | String c s' => decimal (10 * acc + (Z.of_nat (nat_of_ascii c) - 48)) s'
  end.

Definition is_digit (c : ascii) : bool :=
  ((48 <=? nat_of_ascii c)%nat && (nat_of_ascii c <=? 57)%nat).

(** The mail transport as the server is configured for it:
    [STEMLAB_SMTP_HOST], if set, and the sender address. *)
Record smtp := Smtp {
  SMTP_HOST : option string;
  SMTP_FROM : string
}.

Definition newline : string := String (ascii_of_nat 10) EmptyString.

Section mail.

(** The [with smtplib.SMTP(..)] block, up to [sendmail], for a sender, a
    recipient and a message: done, or the text of the exception. *)
Variable sendmail : string → string → string → outcome unit.

(** [send_verification_email]; the value is what it prints, line by
    line. *)
Definition send_verification_email (cfg : smtp) (email code : string)
    : list string :=
  let fallback :=
    "[Stem Lab] Verification code for " +:+ email +:+ ": " +:+ code in
  if nonempty (default EmptyString (SMTP_HOST cfg)) && nonempty (SMTP_FROM cfg)
  then
    let message :=
      "From: " +:+ SMTP_FROM cfg +:+ newline +:+ "To: " +:+ email +:+ newline
      +:+ "Subject: Stem Lab verification code" +:+ newline +:+ newline
      +:+ "Your verification code is: " +:+ code +:+ newline in
    match sendmail (SMTP_FROM cfg) email message with
    | Done _ => ["[Stem Lab] Verification email sent to " +:+ email]
    | Failed exc =>
        ["[Stem Lab] Could not send email via SMTP: " +:+ exc
           +:+ ". Falling back to console.";
         fallback]
    end
  else [fallback].

End mail.

(** The size [stream_copy_to_path] asks of each read. *)
Definition CHUNK : nat := Z.to_nat (1024 * 1024).

(** The loop of [stream_copy_to_path]: [rest] is what the upload has
    left to read, [buffer] what the destination holds; a read returns
    the next [size] bytes, fewer at the end, none after it.  [fuel]
    bounds the number of reads. *)
Fixpoint copy_chunks (fuel size : nat) (rest buffer : bytes) : option bytes :=
  match fuel with
  | O => None
  | S fuel' =>
      match take size rest with
      | [] => Some buffer
      | chunk => copy_chunks fuel' size (drop size rest) (buffer ++ chunk)
      end
  end.

(** [stream_copy_to_path]: the bytes at the destination, opened empty. *)
Definition stream_copy_to_path (upload : bytes) : option bytes :=
  copy_chunks (S (length upload)) CHUNK upload [].

(** [FileResponse(bundle_path, media_type=.., filename=..)]. *)
Record file_response := FileResponse {
  body : gmap string bytes;
  media_type : string;
  download_name : string
}.

(** [GET /api/library/{item_id}/bundle] *)
Definition download_bundle (item_id : string) (lib : library)
    : result file_response :=
  match lib !! item_id ≫= bundle_zip with
  | None => Raise (HTTPException 404 "Bundle not found")
  | Some archive =>
      Ok (FileResponse archive "application/zip" (item_id +:+ ".zip"))
  end.

(** ** Predicates used in the statements *)

(** The creation timestamp [record_account] writes: the one on record
    when there is a non-empty one, the current time otherwise. *)
Definition created_at (isoformat : datetime → string)
    (st : auth) (email : string) (t : datetime) : string :=
  match default ∅ (accounts st !! normalize_email email) !! "createdAt" with
  | Some c => if nonempty c then c else isoformat t +:+ "Z"
  | None => isoformat t +:+ "Z"
  end.

(** The creation timestamp [list_library] sorts a record by. *)
Definition created (item : json) : string :=
  match item with
  | JObj items =>
      match Dict.get items "createdAt" with
      | Some (JStr s) => s
      | _ => EmptyString
      end
  | _ => EmptyString
  end.

(** A metadata record as [save_library] writes them: an object whose
    ["createdAt"], when present, is a string. *)
Definition dated_record (item : json) : bool :=
  match item with
  | JObj items =>
      match Dict.get items "createdAt" with
      | None | Some (JStr _) => true
      | Some _ => false
      end
  | _ => false
  end.

(** The order of the listing: by creation timestamp, as strings. *)
Definition by_date (a b : json) : Prop := (created a ≤ created b)%string.

(** A pair of [list.sort]'s working list: a record under its key. *)
Definition keyed (p : json * json) : Prop := p.1 = JStr (created p.2).



(** What [separate] answers once the model has run: the 500 of a failed
    separation, or the response built from the files it left. *)
Definition separated (b64encode : bytes → string) (model filename : string)
    (out : outcome scratch) : result json :=
  match out with
  | Failed exc => Raise (HTTPException 500 ("Stem separation failed: " +:+ exc))
  | Done tmp => respond b64encode model filename tmp
  end.

(** [payload.get("title") or "Session"] *)
Definition title_of (payload : list (string * json)) : json :=
  match Dict.get payload "title" with
  | Some t => if truthy t then t else JStr "Session"
  | None => JStr "Session"
  end.

(** The metadata record of a session, as [save_library] builds it. *)
Definition session_metadata (isoformat : datetime → string) (utcnow : datetime)
    (item_id : string) (payload stems : list (string * json))
    : list (string * json) :=
  [("id", JStr item_id);
   ("title", title_of payload);
   ("stems", JArr (JStr <$> Dict.keys stems));
   ("createdAt", JStr (isoformat utcnow +:+ "Z"));
   ("bundle", JStr ("/api/library/" +:+ item_id +:+ "/bundle"))].

(** What a stem sent to [save_library] comes back as from
    [get_library_item]: the payload of the bytes it decodes to, for a
    string that decodes. *)
Definition decoded (b64decode : string → outcome bytes)
    (b64encode : bytes → string) (v : option json) : option json :=
  match v with
  | Some (JStr text) =>
      match decode_data_url b64decode text with
      | Done data => Some (JStr (encode_audio_file b64encode data))
      | Failed _ => None
      end
  | _ => None
  end.

(** The payload has no ["stems"] that is an object with an item. *)
Definition stems_required (payload : list (string * json)) : bool :=
  match Dict.get payload "stems" with
  | Some (JObj (_ :: _)) => false
  | _ => true
  end.

(** A stem name [name] for which [item_dir / f"{name}.wav"] is one file
    name in the session directory: it has no separator and no NUL. *)
Definition plain (name : string) : bool :=
  all_chars (λ c, negb (Ascii.eqb c "/") && negb (Ascii.eqb c Ascii.zero))
            name.

(** An upload name that is one ASCII file name: [tmp_dir_path / filename]
    is then the file of that name in the temporary directory. *)
Definition upload_name (filename : string) : bool :=
  Str.is_ascii filename && plain filename
  && negb (String.eqb filename ".") && negb (String.eqb filename "..").

(** The exception [save_library] raises before it creates anything, if
    it does. *)
Definition rejection (body : outcome json) : option exception :=
  match body with
  | Failed exc => Some (HTTPException 400 ("Invalid JSON payload: " +:+ exc))
  | Done (JObj payload) =>
      if stems_required payload
      then Some (HTTPException 400 "Payload must include stems")
      else None
  | Done _ => Some (Uncaught "AttributeError")
  end.

(** The expected stem files a directory holds, encoded, in the order of
    the names. *)
Definition found_stems (b64encode : bytes → string) (tmp : scratch)
    (stems_dir : string) (names : list string) : list (string * json) :=
  omap (λ stem_name,
          match tmp !! join stems_dir (stem_name +:+ ".wav") with
          | Some (File data) =>
              Some (stem_name, JStr (encode_audio_file b64encode data))
          | _ => None
          end) names.

(** ** Collaborators for the examples

    Fixed answers of the library functions, to run the handlers on
    concrete requests. *)
Module Sample.

Definition isoformat (t : datetime) : string := "2024-05-01T12:00:00".
Definition sha256_hexdigest (s : string) : string :=
  "5e884898da28047151d0e56f8dc6292773603d0d6aabbdd62a11ef721d1542d8".
Definition b64encode (data : bytes) : string := "UklGRg==".
Definition b64decode (s : string) : outcome bytes :=
  Failed "Incorrect padding".
Definition py_lt_mixed (a b : json) : result bool :=
  Raise (Uncaught "TypeError").
Definition ffmpeg_run (path : string) (data : bytes) : outcome bytes :=
  Done data.
Definition Separator (model : string) : outcome unit := Done tt.
Definition open_elsewhere (path : string) (data : bytes) : outcome unit :=
  Failed "PermissionError".
(** A two-stem model run on [song.*]. *)
Definition separate_to_file (model source : string) (tmp : scratch)
    : outcome scratch :=
  Done (<["song/drums.wav" := File [x02]]>
         (<["song/vocals.wav" := File [x01]]>
           (<["song" := Directory]> tmp))).

(** A decoder that accepts every text, as the bytes of the text. *)
Definition text_bytes (s : string) : outcome bytes :=
  Done (String.list_byte_of_string s).


(** A library directory of three sessions; the metadata of the second
    does not parse. *)
Definition shelf : library :=
  {["s1" := SessionDir
              (Some (Some (JObj [("createdAt", JStr "2024-05-02T08:00:00Z")])))
              ∅ None;
    "s2" := SessionDir (Some None) ∅ None;
    "s3" := SessionDir
              (Some (Some (JObj [("createdAt", JStr "2024-05-01T12:00:00Z")])))
              ∅ None]}.

End Sample.

(** * Verification-code cache *)

Section verification_codes.
Implicit Types (pending : gmap string entry) (e : entry).
Implicit Types (email : string) (now issued : datetime).

Lemma CODE_TTL_minutes : CODE_TTL = 600000000.
Proof. reflexivity. Qed.

(** A code issued at [issued] is stored with expiry
    [issued] + 10 minutes, over whatever the email had pending. *)
Lemma store_verification_code_lookup pending issued email c :
  store_verification_code issued email c pending !! normalize_email email
  = Some (Entry c (issued + 600000000)).
Proof. unfold store_verification_code. by rewrite lookup_insert_eq. Qed.

Lemma store_verification_code_other pending issued email c k :
  k ≠ normalize_email email →
  store_verification_code issued email c pending !! k = pending !! k.
Proof. intros. unfold store_verification_code. by rewrite lookup_insert_ne. Qed.

Lemma pop_not_pending pending now email c :
  pending !! normalize_email email = None →
  pop_verification_code now email c pending
  = (Raise no_code_requested, pending).
Proof. intros H. unfold pop_verification_code. by rewrite H. Qed.

Lemma pop_expired pending now email c e :
  pending !! normalize_email email = Some e →
  expires e < now →
  pop_verification_code now email c pending = (Raise code_expired, pending).
Proof.
  intros H Hlt. unfold pop_verification_code. rewrite H.
  destruct (Z.gtb_spec now (expires e)); [done | lia].
Qed.

Lemma pop_mismatch pending now email c e :
  pending !! normalize_email email = Some e →
  now ≤ expires e →
  code e ≠ c →
  pop_verification_code now email c pending = (Raise invalid_code, pending).
Proof.
  intros H Hle Hne. unfold pop_verification_code. rewrite H.
  destruct (Z.gtb_spec now (expires e)); [lia |].
  by apply String.eqb_neq in Hne as ->.
Qed.

Lemma pop_match pending now email e :
  pending !! normalize_email email = Some e →
  now ≤ expires e →
  pop_verification_code now email (code e) pending
  = (Ok e, delete (normalize_email email) pending).
Proof.
  intros H Hle. unfold pop_verification_code. rewrite H.
  destruct (Z.gtb_spec now (expires e)); [lia |].
  by rewrite String.eqb_refl.
Qed.

Lemma pop_match_eq pending now email c e :
  pending !! normalize_email email = Some e →
  now ≤ expires e →
  code e = c →
  pop_verification_code now email c pending
  = (Ok e, delete (normalize_email email) pending).
Proof. intros ? ? <-. by apply pop_match. Qed.

(** A redemption that raises leaves the table as it was. *)
Lemma pop_raise_keeps pending now email c exc pending' :
  pop_verification_code now email c pending = (Raise exc, pending') →
  pending' = pending.
Proof.
  unfold pop_verification_code.
  destruct (pending !! _); [| congruence].
  repeat case_match; congruence.
Qed.

(** C1.  When a code is pending for the email and has not expired
    (the current time is at most its expiry, which is the issue time
    plus the TTL), redeeming with the stored code returns the entry
    and deletes it; a second redemption with the same code, at any
    later time, raises "No verification code requested for this
    email." *)
Theorem redeem_succeeds_exactly_once pending now later email e :
  pending !! normalize_email email = Some e →
  now ≤ expires e →
  let pending' := delete (normalize_email email) pending in
  pop_verification_code now email (code e) pending = (Ok e, pending')
  ∧ pending' !! normalize_email email = None
  ∧ pop_verification_code later email (code e) pending'
    = (Raise no_code_requested, pending').
Proof.
  intros H Hle pending'. split_and!.
  - by apply pop_match.
  - apply lookup_delete_eq.
  - apply pop_not_pending, lookup_delete_eq.
Qed.

Lemma redeem_succeeds_exactly_once_witness :
  let pending := store_verification_code 0 "User@Example.com" "000042" ∅ in
  let pending' := delete "user@example.com" pending in
  pop_verification_code 600000000 " user@example.com" "000042" pending
  = (Ok (Entry "000042" 600000000), pending')
  ∧ pending' !! "user@example.com" = None
  ∧ pop_verification_code 600000001 " user@example.com" "000042" pending'
    = (Raise no_code_requested, pending').
Proof.
  exact (redeem_succeeds_exactly_once
           (store_verification_code 0 "User@Example.com" "000042" ∅)
           600000000 600000001 " user@example.com"
           (Entry "000042" 600000000)
           (store_verification_code_lookup ∅ 0 "User@Example.com" "000042")
           (Z.le_refl 600000000)).
Defined.

(** C2.  A code issued at [issued] is stored with the expiry [issued]
    + 10 minutes.  When a code is pending and the current time is
    strictly after its stored expiry, redemption raises "Verification
    code has expired." whatever code is submitted, the stored one
    included, and the table is unchanged: the expiry is checked before
    the codes are compared. *)
Theorem expired_code_is_rejected pending now email submitted e :
  pending !! normalize_email email = Some e →
  expires e < now →
  pop_verification_code now email submitted pending
  = (Raise code_expired, pending)
  ∧ pop_verification_code now email (code e) pending
    = (Raise code_expired, pending)
  ∧ ∀ issued c,
      store_verification_code issued email c pending !! normalize_email email
      = Some (Entry c (issued + 10 * 60 * 1000000)).
Proof.
  intros H Hlt. split_and!; [by eapply pop_expired.. |].
  intros issued c. apply store_verification_code_lookup.
Qed.

Lemma expired_code_is_rejected_witness :
  let pending := store_verification_code 0 "user@example.com" "000042" ∅ in
  pop_verification_code 600000001 "user@example.com" "999999" pending
  = (Raise code_expired, pending)
  ∧ pop_verification_code 600000001 "user@example.com" "000042" pending
    = (Raise code_expired, pending)
  ∧ ∀ issued c,
      store_verification_code issued "user@example.com" c pending
        !! "user@example.com"
      = Some (Entry c (issued + 10 * 60 * 1000000)).
Proof.
  refine (expired_code_is_rejected
            (store_verification_code 0 "user@example.com" "000042" ∅)
            600000001 "user@example.com" "999999"
            (Entry "000042" 600000000)
            (store_verification_code_lookup ∅ 0 "user@example.com" "000042")
            _).
  simpl. lia.
Defined.

(** C3, as stated, fails when the code drawn for the new entry is the
    one the old entry held: the code issued first is redeemed after
    the second issue. *)
Lemma reissued_equal_code_is_redeemed :
  pop_verification_code 2 "user@example.com" (generate_code 42)
    (store_verification_code 1 "user@example.com" (generate_code 42)
      (store_verification_code 0 "user@example.com" (generate_code 42) ∅))
  = (Ok (Entry "000042" 600000001), ∅).
Proof. vm_compute. reflexivity. Qed.

(** C3, amended.  Issuing a code for an email that has one pending
    replaces the entry: the table holds one entry for the email (the
    new code with its own expiry), the other emails keep theirs, and
    the old code, when it differs from the new one, is no longer
    redeemable: redeeming it raises "Verification code has expired."
    after the new expiry and "Invalid verification code." before, and
    leaves the new entry pending. *)
Theorem reissue_invalidates_old_code pending issued now email new_code e :
  pending !! normalize_email email = Some e →
  code e ≠ new_code →
  let pending' := store_verification_code issued email new_code pending in
  pending' !! normalize_email email = Some (Entry new_code (issued + CODE_TTL))
  ∧ dom pending' = dom pending
  ∧ (∀ k, k ≠ normalize_email email → pending' !! k = pending !! k)
  ∧ pop_verification_code now email (code e) pending'
    = (Raise (if now >? issued + CODE_TTL then code_expired else invalid_code),
       pending').
Proof.
  intros H Hne pending'.
  assert (Hnew : pending' !! normalize_email email
                 = Some (Entry new_code (issued + CODE_TTL)))
    by apply store_verification_code_lookup.
  split_and!; [done | | |].
  - unfold pending', store_verification_code. rewrite dom_insert_L.
    apply subseteq_union_1_L, singleton_subseteq_l. by eapply elem_of_dom_2.
  - intros k Hk. by apply store_verification_code_other.
  - destruct (Z.gtb_spec now (issued + CODE_TTL)).
    + eapply pop_expired; [exact Hnew | simpl; lia].
    + eapply pop_mismatch; [exact Hnew | simpl; lia | simpl; congruence].
Qed.

Lemma reissue_invalidates_old_code_witness :
  let pending := store_verification_code 0 "user@example.com" "000042" ∅ in
  let pending' := store_verification_code 1 "user@example.com" "000043" pending in
  pending' !! "user@example.com" = Some (Entry "000043" 600000001)
  ∧ dom pending' = dom pending
  ∧ (∀ k, k ≠ "user@example.com" → pending' !! k = pending !! k)
  ∧ pop_verification_code 2 "user@example.com" "000042" pending'
    = (Raise invalid_code, pending').
Proof.
  refine (reissue_invalidates_old_code
            (store_verification_code 0 "user@example.com" "000042" ∅)
            1 2 "user@example.com" "000043" (Entry "000042" 600000000)
            (store_verification_code_lookup ∅ 0 "user@example.com" "000042")
            _).
  simpl. discriminate.
Defined.

End verification_codes.

(** * Account store *)

Section accounts.
Variable isoformat : datetime → string.
Variable sha256_hexdigest : string → string.
Implicit Types (st : auth) (email name : string) (t : datetime).

Lemma digit_not_space n : Str.isspace (Str.digit n) = false.
Proof.
  unfold Str.digit.
  pose proof (Z.mod_pos_bound n 10 eq_refl) as Hb.
  assert (Hc : ∃ k : nat, (k < 10)%nat ∧ Z.to_nat (n mod 10) = k).
  { exists (Z.to_nat (n mod 10)). split; [lia | done]. }
  destruct Hc as (k & Hk & ->).
  do 10 (destruct k as [|k]; [reflexivity |]). lia.
Qed.

(** The code is six characters, none of them a space. *)
Lemma generate_code_chars r :
  ∃ c1 c2 c3 c4 c5 c6,
    generate_code r
    = String c1 (String c2 (String c3 (String c4 (String c5 (String c6 "")))))
    ∧ Str.isspace c1 = false ∧ Str.isspace c6 = false.
Proof.
  do 6 eexists. split; [reflexivity |].
  split; apply digit_not_space.
Qed.

Lemma nonempty_generate_code r : nonempty (generate_code r) = true.
Proof. by destruct (generate_code_chars r) as (? & ? & ? & ? & ? & ? & -> & _). Qed.

(** Sending the code as it was generated sends a stripped code. *)
Lemma strip_generate_code r : Str.strip (generate_code r) = generate_code r.
Proof.
  destruct (generate_code_chars r)
    as (c1 & c2 & c3 & c4 & c5 & c6 & -> & H1 & H6).
  unfold Str.strip, Str.rstrip. cbn [Str.lstrip]. rewrite H1.
  cbn [String.rev String.rev_app Str.lstrip]. rewrite H6. reflexivity.
Qed.

Lemma nonempty_true s : nonempty s = true ↔ s ≠ "".
Proof.
  unfold nonempty. rewrite negb_true_iff. apply String.eqb_neq.
Qed.

Lemma timestamp_nonempty t : nonempty (isoformat t +:+ "Z") = true.
Proof. by destruct (isoformat t). Qed.

Lemma created_at_nonempty st email t : nonempty (created_at isoformat st email t) = true.
Proof.
  unfold created_at. destruct (_ !! "createdAt") as [c|].
  - destruct (nonempty c) eqn:Hc; [done | apply timestamp_nonempty].
  - apply timestamp_nonempty.
Qed.

(** [record_account] never raises; it returns the record it stores under
    the normalized email and writes the whole table to the file. *)
Lemma record_account_spec st t email name hash :
  ∃ a table,
    record_account isoformat t email name hash st
    = (Ok a, Auth (PENDING_CODES st) table (Some table))
    ∧ table = <[normalize_email email := a]> (accounts st)
    ∧ a !! "email" = Some email
    ∧ a !! "name" = Some name
    ∧ a !! "passwordHash" = Some hash
    ∧ a !! "createdAt" = Some (created_at isoformat st email t)
    ∧ a !! "updatedAt" = Some (isoformat t +:+ "Z").
Proof.
  unfold record_account. cbn.
  eexists _, _. split; [reflexivity |]. split; [reflexivity |].
  split_and!; by simplify_map_eq.
Qed.

(** C5.  Two calls of [record_account] for emails with the same
    normalized key: the second returns (and stores) a record with the
    creation timestamp of the first, which is not empty, and with the
    name, the password hash and the update timestamp of the second
    call. *)
Theorem record_account_keeps_creation_timestamp
    st t1 t2 email1 email2 name1 name2 hash1 hash2 :
  normalize_email email2 = normalize_email email1 →
  ∃ a1 st1 a2 st2 c,
    record_account isoformat t1 email1 name1 hash1 st = (Ok a1, st1)
    ∧ record_account isoformat t2 email2 name2 hash2 st1 = (Ok a2, st2)
    ∧ a1 !! "createdAt" = Some c ∧ c ≠ ""
    ∧ a2 !! "createdAt" = Some c
    ∧ a2 !! "name" = Some name2
    ∧ a2 !! "passwordHash" = Some hash2
    ∧ a2 !! "updatedAt" = Some (isoformat t2 +:+ "Z")
    ∧ accounts st2 !! normalize_email email1 = Some a2
    ∧ ACCOUNTS_PATH st2 = Some (accounts st2).
Proof.
  intros Hkey.
  destruct (record_account_spec st t1 email1 name1 hash1)
    as (a1 & table1 & Hrun1 & -> & _ & _ & _ & Hc1 & _).
  set (st1 := Auth _ _ _) in Hrun1.
  destruct (record_account_spec st1 t2 email2 name2 hash2)
    as (a2 & table2 & Hrun2 & -> & _ & Hn2 & Hh2 & Hc2 & Hu2).
  set (st2 := Auth _ _ _) in Hrun2.
  exists a1, st1, a2, st2, (created_at isoformat st email1 t1).
  split_and!; try done.
  - apply nonempty_true, created_at_nonempty.
  - rewrite Hc2. f_equal. unfold created_at at 1.
    rewrite Hkey. subst st1. simpl. rewrite lookup_insert_eq. simpl.
    rewrite Hc1. by rewrite created_at_nonempty.
  - simpl. rewrite Hkey. apply lookup_insert_eq.
Qed.

End accounts.

Lemma record_account_keeps_creation_timestamp_witness :
  ∃ a1 st1 a2 st2 c,
    record_account Sample.isoformat 0 "User@Example.com" "Ann" "h1"
      (Auth ∅ ∅ None) = (Ok a1, st1)
    ∧ record_account Sample.isoformat 7 " user@example.com " "Bob" "h2" st1
      = (Ok a2, st2)
    ∧ a1 !! "createdAt" = Some c ∧ c ≠ ""
    ∧ a2 !! "createdAt" = Some c
    ∧ a2 !! "name" = Some "Bob"
    ∧ a2 !! "passwordHash" = Some "h2"
    ∧ a2 !! "updatedAt" = Some (Sample.isoformat 7 +:+ "Z")
    ∧ accounts st2 !! normalize_email "User@Example.com" = Some a2
    ∧ ACCOUNTS_PATH st2 = Some (accounts st2).
Proof.
  exact (record_account_keeps_creation_timestamp Sample.isoformat (Auth ∅ ∅ None) 0 7
           "User@Example.com" " user@example.com " "Ann" "Bob" "h1" "h2"
           eq_refl).
Defined.

(** * Verification flow *)

Section verification_flow.
Variable isoformat : datetime → string.
Variable sha256_hexdigest : string → string.
Implicit Types (st : auth) (payload : gmap string string) (t : datetime).

Lemma request_code_spec st t r payload :
  nonempty (Str.strip (get_or_empty payload "email")) = true →
  request_code t r payload st
  = (Ok true,
     Auth (store_verification_code t (Str.strip (get_or_empty payload "email"))
             (generate_code r) (PENDING_CODES st))
          (accounts st) (ACCOUNTS_PATH st)).
Proof. intros H. unfold request_code. by rewrite H. Qed.

(** [verify_code] on a request that carries an email, a code and a
    password, by what the redemption does. *)
Lemma verify_code_spec st t t' payload :
  let email := Str.strip (get_or_empty payload "email") in
  let submitted := Str.strip (get_or_empty payload "code") in
  nonempty email = true →
  nonempty submitted = true →
  nonempty (get_or_empty payload "password") = true →
  match pop_verification_code t email submitted (PENDING_CODES st) with
  | (Raise exc, _) =>
      verify_code isoformat sha256_hexdigest t t' payload st = (Raise exc, st)
  | (Ok _, pending') =>
      ∃ sm st',
        verify_code isoformat sha256_hexdigest t t' payload st = (Ok sm, st')
        ∧ PENDING_CODES st' = pending'
        ∧ s_email sm = email
        ∧ s_createdAt sm
          = Some (created_at isoformat st email t')
  end.
Proof.
  intros email submitted He Hc Hp.
  destruct (pop_verification_code _ _ _ _) as [[e|exc] pending'] eqn:Hpop.
  - unfold verify_code. fold email submitted. rewrite He, Hc, Hp. cbn -[pop_verification_code record_account].
    unfold mbind, M_bind, bind, with_pending.
    rewrite Hpop.
    set (hash := if nonempty _ then _ else _).
    set (name := Str.strip _).
    destruct (record_account_spec isoformat
                (Auth pending' (accounts st) (ACCOUNTS_PATH st))
                t' email name hash)
      as (a & table & Hrun & _ & Hemail & _ & _ & Hcreated & _).
    rewrite Hrun. do 2 eexists. split; [reflexivity |].
    cbn. by rewrite Hemail, Hcreated.
  - apply pop_raise_keeps in Hpop as Heq. subst pending'.
    unfold verify_code. fold email submitted. rewrite He, Hc, Hp. cbn -[pop_verification_code record_account].
    unfold mbind, M_bind, bind, with_pending.
    rewrite Hpop. by destruct st.
Qed.

(** A request to verify that raises changes neither the pending codes
    nor the accounts. *)
Lemma verify_code_raise_keeps st t t' payload exc st' :
  verify_code isoformat sha256_hexdigest t t' payload st = (Raise exc, st') →
  st' = st.
Proof.
  unfold verify_code. case_match; [unfold raise; congruence |].
  cbn -[pop_verification_code record_account].
  unfold mbind, M_bind, bind, with_pending.
  destruct (pop_verification_code _ _ _ _) as [[e|exc'] pending'] eqn:Hpop.
  - set (hash := if nonempty _ then _ else _).
    set (name := Str.strip (get_or_empty payload "name")).
    destruct (record_account_spec isoformat
                (Auth pending' (accounts st) (ACCOUNTS_PATH st))
                t' (Str.strip (get_or_empty payload "email")) name hash)
      as (a & table & Hrun & _).
    rewrite Hrun. cbv [mret M_ret ret]. congruence.
  - apply pop_raise_keeps in Hpop as ->. destruct st. cbn. congruence.
Qed.


End verification_flow.


(** * Library store: create and get *)

Section library_create.
Variable isoformat : datetime → string.
Variable b64encode : bytes → string.
Variable b64decode : string → outcome bytes.
Implicit Types (lib : library) (stems : list (string * json)).
Implicit Types (item_id name text file : string) (d : session_dir).

Lemma write_bytes_spec item_id file data lib d :
  lib !! item_id = Some d →
  write_bytes item_id file data lib
  = (Ok tt, <[item_id := SessionDir (meta_json d) (<[file := data]> (wavs d))
                           (bundle_zip d)]> lib).
Proof.
  intros H. unfold write_bytes, in_dir, modify. f_equal.
  apply map_eq. intros k. destruct (decide (k = item_id)) as [->|].
  - by rewrite lookup_alter_eq, lookup_insert_eq, H.
  - by rewrite lookup_alter_ne, lookup_insert_ne.
Qed.


(** When every string decodes the loop ends normally, having written one
    file per string-valued stem and nothing else. *)
Lemma write_stems_success item_id stems lib d :
  (∀ name text, (name, JStr text) ∈ stems →
     ∃ data, decode_data_url b64decode text = Done data) →
  lib !! item_id = Some d →
  ∃ files,
    write_stems b64decode item_id stems lib
    = (Ok tt, <[item_id := SessionDir (meta_json d) files (bundle_zip d)]> lib)
    ∧ ∀ file, is_Some (files !! file)
        ↔ is_Some (wavs d !! file)
          ∨ ∃ name text, (name, JStr text) ∈ stems ∧ file = name +:+ ".wav".
Proof.
  revert lib d. induction stems as [|[n v] stems IH]; intros lib d Hdec Hd.
  { exists (wavs d). split.
    - cbn. unfold mret, M_ret, ret. f_equal. destruct d. by rewrite insert_id.
    - intros file. split; [by left |].
      intros [? | (? & ? & Hin & _)]; [done | inversion Hin]. }
  assert (Hdec' : ∀ name text, (name, JStr text) ∈ stems →
            ∃ data, decode_data_url b64decode text = Done data).
  { intros name text Hin. apply (Hdec name text). by apply elem_of_cons; right. }
  assert (Hskip : (∀ s, v ≠ JStr s) →
    ∃ files,
      write_stems b64decode item_id stems lib
      = (Ok tt, <[item_id := SessionDir (meta_json d) files (bundle_zip d)]> lib)
      ∧ ∀ file, is_Some (files !! file)
          ↔ is_Some (wavs d !! file)
            ∨ ∃ name text, (name, JStr text) ∈ (n, v) :: stems
                           ∧ file = name +:+ ".wav").
  { intros Hv. destruct (IH lib d Hdec' Hd) as (files & Hrun & Hfiles).
    exists files. split; [done |]. intros file. rewrite Hfiles.
    split; (intros [? | (name & text & Hin & ->)]; [by left | right]).
    - exists name, text. split; [by apply elem_of_cons; right | done].
    - exists name, text. split; [| done].
      apply elem_of_cons in Hin as [[= -> Heq] | ?]; [by destruct (Hv text) | done]. }
  destruct v as [| | |s| |]; cbn [write_stems]; try (apply Hskip; congruence).
  destruct (Hdec n s) as [data Hs]; [by apply elem_of_cons; left |].
  rewrite Hs. unfold mbind, M_bind, bind. rewrite (write_bytes_spec _ _ _ _ _ Hd).
  set (d' := SessionDir _ _ _).
  destruct (IH (<[item_id := d']> lib) d' Hdec') as (files & Hrun & Hfiles).
  { apply lookup_insert_eq. }
  exists files. split.
  - rewrite Hrun. by rewrite insert_insert_eq.
  - intros file. rewrite Hfiles. subst d'. cbn [wavs].
    destruct (decide (file = n +:+ ".wav")) as [-> | Hne].
    + rewrite lookup_insert_eq. split; intros _.
      * right. exists n, s. split; [by apply elem_of_cons; left | done].
      * left. by eexists.
    + rewrite lookup_insert_ne by done.
      split; (intros [? | (name & text & Hin & ->)]; [by left | right]).
      * exists name, text. split; [by apply elem_of_cons; right | done].
      * exists name, text. split; [| done].
        apply elem_of_cons in Hin as [[= -> ->] | ?]; [done | done].
Qed.

Lemma mkdir_spec item_id lib :
  ∃ d, mkdir item_id lib = (Ok tt, <[item_id := d]> lib)
       ∧ d = default empty_dir (lib !! item_id).
Proof.
  unfold mkdir, modify. destruct (lib !! item_id) as [d|] eqn:Hd.
  - exists d. by rewrite insert_id.
  - by exists empty_dir.
Qed.



(** C10.  A create request with a fresh identifier and a non-empty stems
    mapping in which every string has a plain name and decodes
    succeeds; the metadata record it writes lists every key of the
    mapping, while the files it writes are those of the string-valued
    stems only.  When no value is a string, [get] on the new session
    returns the record with an empty ["stems"] mapping. *)
Theorem non_string_stems_listed_not_written
    utcnow item_id payload stems lib :
  Dict.get payload "stems" = Some (JObj stems) →
  stems ≠ [] →
  (∀ name text, (name, JStr text) ∈ stems → plain name = true) →
  (∀ name text, (name, JStr text) ∈ stems →
     ∃ data, decode_data_url b64decode text = Done data) →
  lib !! item_id = None →
  ∃ items lib' d,
    save_library isoformat b64decode utcnow item_id (Done (JObj payload)) lib
    = (Ok (JObj items), lib')
    ∧ lib' !! item_id = Some d
    ∧ meta_json d = Some (Some (JObj items))
    ∧ Dict.get items "stems" = Some (JArr (JStr <$> Dict.keys stems))
    ∧ (∀ file, is_Some (wavs d !! file)
         ↔ ∃ name text, (name, JStr text) ∈ stems ∧ file = name +:+ ".wav")
    ∧ (Forall (λ kv, is_str kv.2 = false) stems →
       get_library_item b64encode item_id lib'
       = (Ok (JObj (Dict.set items "stems" (JObj []))), lib')).
Proof.
  intros Hstems Hne _ Hdec Hfresh.
  unfold save_library. rewrite Hstems.
  destruct stems as [|kv stems]; [done |].
  unfold mbind at 1, M_bind, bind.
  destruct (mkdir_spec item_id lib) as (d0 & -> & Hd0).
  rewrite Hfresh in Hd0. cbn in Hd0. subst d0.
  destruct (write_stems_success item_id (kv :: stems)
              (<[item_id := empty_dir]> lib) empty_dir Hdec)
    as (files & Hrun & Hfiles).
  { apply lookup_insert_eq. }
  unfold mbind at 1, M_bind, bind. rewrite Hrun.
  rewrite insert_insert_eq. cbn [meta_json bundle_zip empty_dir].
  unfold mbind, M_bind, bind, in_dir, modify, mret, ret.
  rewrite !alter_insert_eq. cbn [meta_json wavs bundle_zip].
  do 3 eexists. split; [reflexivity |].
  split; [apply lookup_insert_eq |]. split; [reflexivity |].
  split; [reflexivity |]. split.
  - intros file. rewrite Hfiles. cbn. rewrite lookup_empty.
    split; [intros [[? [=]] | ?]; done | by right].
  - intros Hnon.
    assert (Hempty : files = ∅).
    { apply map_empty. intros file. apply eq_None_not_Some. rewrite Hfiles.
      cbn. rewrite lookup_empty. intros [[? [=]] | (name & text & Hin & _)].
      rewrite Forall_forall in Hnon. by specialize (Hnon _ Hin). }
    subst files.
    unfold get_library_item, mbind at 1, M_bind, bind, get_state.
    rewrite lookup_insert_eq. cbn. by rewrite map_to_list_empty.
Qed.

End library_create.



Lemma non_string_stems_listed_not_written_witness :
  (∃ items lib' d,
     save_library Sample.isoformat Sample.b64decode 0 "s1"
       (Done (JObj [("stems", JObj [("vocals", JNum 5); ("drums", JNull)])])) ∅
     = (Ok (JObj items), lib')
     ∧ lib' !! "s1" = Some d
     ∧ meta_json d = Some (Some (JObj items))
     ∧ Dict.get items "stems" = Some (JArr [JStr "vocals"; JStr "drums"])
     ∧ (∀ file, is_Some (wavs d !! file)
          ↔ ∃ name text,
              (name, JStr text) ∈ [("vocals", JNum 5); ("drums", JNull)]
              ∧ file = name +:+ ".wav")
     ∧ (Forall (λ kv : string * json, is_str kv.2 = false)
          [("vocals", JNum 5); ("drums", JNull)] →
        get_library_item Sample.b64encode "s1" lib'
        = (Ok (JObj (Dict.set items "stems" (JObj []))), lib')))
  ∧ (∃ items lib' d,
       save_library Sample.isoformat Sample.text_bytes 0 "s2"
         (Done (JObj [("stems", JObj [("vocals", JStr "UklGRg==");
                                      ("notes", JNum 5)])])) ∅
       = (Ok (JObj items), lib')
       ∧ lib' !! "s2" = Some d
       ∧ meta_json d = Some (Some (JObj items))
       ∧ Dict.get items "stems" = Some (JArr [JStr "vocals"; JStr "notes"])
       ∧ (∀ file, is_Some (wavs d !! file)
            ↔ ∃ name text,
                (name, JStr text) ∈ [("vocals", JStr "UklGRg==");
                                     ("notes", JNum 5)]
                ∧ file = name +:+ ".wav")
       ∧ (Forall (λ kv : string * json, is_str kv.2 = false)
            [("vocals", JStr "UklGRg=="); ("notes", JNum 5)] →
          get_library_item Sample.b64encode "s2" lib'
          = (Ok (JObj (Dict.set items "stems" (JObj []))), lib'))).
Proof.
  split.
  - refine (non_string_stems_listed_not_written
              Sample.isoformat Sample.b64encode Sample.b64decode 0 "s1"
              [("stems", JObj [("vocals", JNum 5); ("drums", JNull)])]
              [("vocals", JNum 5); ("drums", JNull)] ∅
              eq_refl _ _ _ eq_refl).
    + discriminate.
    + intros name text Hin.
      apply elem_of_cons in Hin as [[=] | Hin].
      apply elem_of_cons in Hin as [[=] | Hin].
      inversion Hin.
    + intros name text Hin.
      apply elem_of_cons in Hin as [[=] | Hin].
      apply elem_of_cons in Hin as [[=] | Hin].
      inversion Hin.
  - refine (non_string_stems_listed_not_written
              Sample.isoformat Sample.b64encode Sample.text_bytes 0 "s2"
              [("stems", JObj [("vocals", JStr "UklGRg=="); ("notes", JNum 5)])]
              [("vocals", JStr "UklGRg=="); ("notes", JNum 5)] ∅
              eq_refl _ _ _ eq_refl).
    + discriminate.
    + intros name text Hin.
      apply elem_of_cons in Hin as [[= -> _] | Hin]; [reflexivity |].
      apply elem_of_cons in Hin as [[=] | Hin].
      inversion Hin.
    + intros name text Hin.
      apply elem_of_cons in Hin as [[= _ ->] | Hin]; [by eexists |].
      apply elem_of_cons in Hin as [[=] | Hin].
      inversion Hin.
Defined.

(** * Library store: list *)

Section library_list.
Variable py_lt_mixed : json → json → result bool.
Implicit Types (lib : library) (item : json) (l : list (json * json)).

Lemma ltb_true_le (s t : string) : String.ltb s t = true → (s ≤ t)%string.
Proof.
  unfold String.le, String.leb, String.ltb.
  by destruct (String.compare s t).
Qed.

Lemma ltb_false_le (s t : string) : String.ltb s t = false → (t ≤ s)%string.
Proof.
  unfold String.le, String.leb, String.ltb.
  rewrite (String.compare_antisym s t).
  by destruct (String.compare t s).
Qed.

Lemma sort_key_dated item :
  dated_record item = true → sort_key item = Ok (JStr (created item)).
Proof.
  destruct item as [| | | | |items]; try done. cbn.
  by destruct (Dict.get items "createdAt") as [[| | |s| |]|].
Qed.

Lemma with_keys_dated (items : list json) :
  Forall (λ item, dated_record item = true) items →
  with_keys items = Ok ((λ item, (JStr (created item), item)) <$> items).
Proof.
  induction 1 as [|item items Hitem _ IH]; [done |].
  cbn [with_keys]. rewrite (sort_key_dated _ Hitem). cbn. by rewrite IH.
Qed.

Lemma with_keys_items (items : list json) :
  ((λ item, (JStr (created item), item)) <$> items).*2 = items.
Proof. induction items as [|item items IH]; [done | cbn; by rewrite IH]. Qed.

(** Inserting a record into a sorted list of records keeps it sorted and
    loses nothing. *)
Lemma insert_by_key_sorted x l :
  keyed x → Forall keyed l → StronglySorted by_date l.*2 →
  ∃ l', insert_by_key py_lt_mixed x l = Ok l'
        ∧ l' ≡ₚ x :: l
        ∧ Forall keyed l'
        ∧ StronglySorted by_date l'.*2.
Proof.
  intros Hx. induction l as [|y l IH]; intros Hl Hsorted.
  { exists [x]. split_and!; [done | done | by constructor |].
    repeat constructor. }
  apply Forall_cons in Hl as [Hy Hl].
  cbn [fmap list_fmap] in Hsorted. apply StronglySorted_inv in Hsorted as [Hs Hall].
  cbn [insert_by_key]. rewrite Hy, Hx. cbn [py_lt mbind result_bind].
  destruct (String.ltb (created y.2) (created x.2)) eqn:Hlt.
  - destruct (IH Hl Hs) as (l' & -> & Hperm & Hkeyed & Hsorted').
    exists (y :: l'). cbn. split_and!; [done | | by constructor |].
    + rewrite Hperm. apply perm_swap.
    + constructor; [done |].
      assert (Hp : l'.*2 ≡ₚ x.2 :: l.*2) by (by rewrite Hperm).
      rewrite Hp. constructor; [| done].
      by apply ltb_true_le.
  - exists (x :: y :: l). split_and!; [done | done | by repeat constructor |].
    cbn. apply ltb_false_le in Hlt.
    constructor; [by constructor |].
    constructor; [done |].
    eapply Forall_impl; [exact Hall |].
    intros z Hz. unfold by_date in *. by etrans.
Qed.

Lemma sort_by_key_sorted l :
  Forall keyed l →
  ∃ l', sort_by_key py_lt_mixed l = Ok l'
        ∧ l' ≡ₚ l
        ∧ Forall keyed l'
        ∧ StronglySorted by_date l'.*2.
Proof.
  induction 1 as [|x l Hx Hl IH].
  { exists []. split_and!; [done | done | done | constructor]. }
  destruct IH as (l0 & Hrun & Hperm & Hkeyed & Hsorted).
  destruct (insert_by_key_sorted x l0 Hx Hkeyed Hsorted)
    as (l' & Hins & Hperm' & Hkeyed' & Hsorted').
  exists l'. cbn [sort_by_key]. rewrite Hrun. cbn.
  split_and!; [done | | done | done].
  by rewrite Hperm', Hperm.
Qed.

(** The records [list_library] reads are those of the sessions whose
    [meta.json] parses, one per session. *)
Lemma elem_of_parsed_metadata lib item :
  item ∈ parsed_metadata lib
  ↔ ∃ item_id d, lib !! item_id = Some d ∧ meta_json d = Some (Some item).
Proof.
  unfold parsed_metadata. rewrite list_elem_of_omap. split.
  - intros ([item_id d] & Hin & Hmeta). apply elem_of_map_to_list in Hin.
    exists item_id, d. split; [done |]. cbn in Hmeta.
    by destruct (meta_json d) as [[?|]|]; simplify_eq/=.
  - intros (item_id & d & Hd & Hmeta). exists (item_id, d).
    split; [by apply elem_of_map_to_list |]. cbn. by rewrite Hmeta.
Qed.

Lemma length_parsed_metadata lib :
  length (parsed_metadata lib)
  = size (filter (λ kv : string * session_dir,
                    is_Some (meta_json kv.2 ≫= id)) lib).
Proof.
  unfold parsed_metadata.
  induction lib as [|item_id d lib Hfresh Hfirst IH] using map_first_key_ind.
  { by rewrite map_filter_empty, map_to_list_empty. }
  rewrite map_to_list_insert_first_key by done. cbn [omap list_omap snd].
  destruct (meta_json d ≫= id) as [item|] eqn:Hmeta.
  - rewrite map_filter_insert_True by (cbn; by rewrite Hmeta).
    rewrite map_size_insert_None by (by rewrite map_lookup_filter_None; left).
    cbn [length]. by f_equal.
  - rewrite map_filter_insert_not'; [done | |].
    + cbn. rewrite Hmeta. by intros [].
    + intros y Hy. by rewrite Hfresh in Hy.
Qed.

(** C9, amended.  When every metadata record that parses is an object
    whose ["createdAt"], if it has one, is a string, [list] returns the
    records of the sessions whose metadata parses, one per such session
    and no other, in ascending order of the creation-timestamp string
    (the empty string for a record without one); sessions whose
    metadata does not parse are left out. *)
Theorem list_library_sorted lib :
  Forall (λ item, dated_record item = true) (parsed_metadata lib) →
  ∃ items,
    list_library py_lt_mixed lib = Ok items
    ∧ items ≡ₚ parsed_metadata lib
    ∧ StronglySorted by_date items
    ∧ (∀ item, item ∈ items
         ↔ ∃ item_id d, lib !! item_id = Some d
                        ∧ meta_json d = Some (Some item))
    ∧ length items
      = size (filter (λ kv : string * session_dir,
                        is_Some (meta_json kv.2 ≫= id)) lib).
Proof.
  intros Hdated. unfold list_library.
  rewrite (with_keys_dated _ Hdated). cbn [mbind result_bind].
  set (pairs := _ <$> parsed_metadata lib).
  assert (Hkeyed : Forall keyed pairs).
  { apply Forall_fmap, Forall_true. by intros item. }
  assert (Hitems : pairs.*2 = parsed_metadata lib).
  { apply with_keys_items. }
  destruct (sort_by_key_sorted pairs Hkeyed) as (l' & -> & Hperm & _ & Hsorted).
  assert (Hperm' : l'.*2 ≡ₚ parsed_metadata lib).
  { rewrite <- Hitems. by apply fmap_Permutation. }
  exists l'.*2. split_and!; [done | done | done | |].
  - intros item. rewrite Hperm'. apply elem_of_parsed_metadata.
  - rewrite Hperm'. apply length_parsed_metadata.
Qed.

End library_list.

(** C9, as stated, fails on a directory with a [meta.json] that parses
    to something else than an object (here the text [[]]): the record is
    read, and the sort key [item.get] raises. *)
Lemma list_library_raises_on_array :
  list_library Sample.py_lt_mixed
    {["s1" := SessionDir (Some (Some (JArr []))) ∅ None]}
  = Raise (Uncaught "AttributeError").
Proof. vm_compute. reflexivity. Qed.

Lemma list_library_sorted_witness :
  ∃ items,
    list_library Sample.py_lt_mixed Sample.shelf = Ok items
    ∧ items ≡ₚ parsed_metadata Sample.shelf
    ∧ StronglySorted by_date items
    ∧ (∀ item, item ∈ items
         ↔ ∃ item_id d, Sample.shelf !! item_id = Some d
                        ∧ meta_json d = Some (Some item))
    ∧ length items
      = size (filter (λ kv : string * session_dir,
                        is_Some (meta_json kv.2 ≫= id)) Sample.shelf).
Proof.
  refine (list_library_sorted Sample.py_lt_mixed Sample.shelf _).
  vm_compute. repeat constructor.
Defined.

(** * Separation orchestrator *)

Section paths.
Implicit Types (s name filename : string) (c : ascii).

Lemma plain_cons c s :
  plain (String c s) = true →
  Ascii.eqb c "/" = false ∧ Ascii.eqb c Ascii.zero = false ∧ plain s = true.
Proof.
  unfold plain. cbn [all_chars]. intros H.
  apply andb_true_iff in H as [Hc Hs]. apply andb_true_iff in Hc as [H1 H2].
  apply negb_true_iff in H1, H2. done.
Qed.

Lemma split_plain s : plain s = true → Path.split s = [s].
Proof.
  induction s as [|c s IH]; [done |].
  intros (Hc & _ & Hs)%plain_cons. cbn [Path.split]. by rewrite Hc, IH.
Qed.

(** A name without separator is the one component of its path, unless it
    is empty or [.]. *)
Lemma parts_plain s :
  plain s = true → nonempty s = true → s ≠ "." → Path.parts s = [s].
Proof.
  intros Hs Hne Hdot. unfold Path.parts. rewrite (split_plain _ Hs).
  cbn [List.filter]. rewrite Hne.
  by destruct (String.eqb_spec s ".").
Qed.

Lemma name_plain s : plain s = true → s ≠ "." → Path.name s = s.
Proof.
  intros Hs Hdot. destruct s as [|c s]; [done |].
  unfold Path.name. by rewrite parts_plain.
Qed.


Lemma upload_name_spec filename :
  upload_name filename = true →
  Str.is_ascii filename = true ∧ plain filename = true
  ∧ filename ≠ "." ∧ filename ≠ "..".
Proof.
  unfold upload_name. intros H.
  apply andb_true_iff in H as [H Hdd]. apply andb_true_iff in H as [H Hd].
  apply andb_true_iff in H as [Ha Hp].
  split_and!; [done | done | |].
  - intros ->. done.
  - intros ->. done.
Qed.


Lemma path_stem_upload_name filename :
  upload_name filename = true → path_stem filename = Path.stem_of filename.
Proof.
  intros (_ & Hp & Hd & _)%upload_name_spec. unfold path_stem.
  by rewrite name_plain.
Qed.

End paths.

Section orchestration.
Variable b64encode : bytes → string.
Variable ffmpeg_run : string → bytes → outcome bytes.
Variable Separator : string → outcome unit.
Variable separate_to_file : string → string → scratch → outcome scratch.
Variable open_elsewhere : string → bytes → outcome unit.
Implicit Types (st : orchestrator) (filename model : string) (tmp : scratch).




(** The rest of [separate] once the file to separate is chosen. *)
Lemma separate_from_source st filename upload (model : option string) :
  nonempty filename = true →
  separate b64encode ffmpeg_run Separator separate_to_file open_elsewhere
    filename upload model st
  = match extract_audio ffmpeg_run open_elsewhere filename upload st with
    | (Raise exc, st1) => (Raise exc, st1)
    | (Ok (source, tmp), st1) =>
        let m := default DEFAULT_MODEL model in
        match get_separator Separator m st1 with
        | (Raise exc, st2) => (Raise exc, st2)
        | (Ok _, st2) =>
            (separated b64encode m filename (separate_to_file m source tmp),
             Orchestrator (separator_cache st2)
               (calls st2 ++ [Spleeter m source]))
        end
    end.
Proof.
  intros Hname. unfold separate. rewrite Hname. cbn [negb].
  unfold mbind at 1, M_bind, bind.
  destruct (extract_audio _ _ _ _ _) as [[[source tmp]|exc] st1]; [| done].
  unfold mbind at 1, M_bind, bind.
  destruct (get_separator _ _ _) as [[[]|exc] st2]; [| done].
  unfold mbind at 1, M_bind, bind, log, modify.
  unfold separated.
  destruct (separate_to_file _ _ _) as [tmp'|exc]; [| done].
  by destruct (respond _ _ _ _).
Qed.











End orchestration.




(** * Strings: stripping, lowering, digits *)

Section strings.
Implicit Types (s t u : string) (c : ascii).

Lemma str_app_cons c s t : String c s +:+ t = String c (s +:+ t).
Proof. reflexivity. Qed.

Lemma str_app_assoc s t u : (s +:+ t) +:+ u = s +:+ (t +:+ u).
Proof. induction s as [|c s IH]; [done | by rewrite !str_app_cons, IH]. Qed.

Lemma str_length_app s t :
  String.length (s +:+ t) = (String.length s + String.length t)%nat.
Proof.
  induction s as [|c s IH]; [done |]. rewrite str_app_cons. cbn. by rewrite IH.
Qed.

Lemma str_app_inv_tail s t u : s +:+ u = t +:+ u → s = t.
Proof.
  revert t. induction s as [|c s IH]; intros [|c' t] H; [done | | |].
  - apply (f_equal String.length) in H.
    rewrite !str_length_app in H. cbn in H. lia.
  - apply (f_equal String.length) in H.
    rewrite !str_length_app in H. cbn in H. lia.
  - rewrite !str_app_cons in H. injection H as -> H. f_equal. by apply IH.
Qed.

Lemma str_rev_app s t : String.rev_app s t = String.rev s +:+ t.
Proof.
  unfold String.rev. revert t. induction s as [|c s IH]; intros t; [done |].
  cbn [String.rev_app]. rewrite IH, (IH (String c "")).
  by rewrite str_app_assoc.
Qed.

Lemma str_rev_cons c s : String.rev (String c s) = String.rev s +:+ String c "".
Proof. unfold String.rev at 1. cbn [String.rev_app]. apply str_rev_app. Qed.

Lemma str_rev_snoc s c : String.rev (s +:+ String c "") = String c (String.rev s).
Proof.
  induction s as [|c' s IH]; [done |].
  by rewrite str_app_cons, !str_rev_cons, IH.
Qed.

Lemma str_rev_involutive s : String.rev (String.rev s) = s.
Proof.
  induction s as [|c s IH]; [done |].
  by rewrite str_rev_cons, str_rev_snoc, IH.
Qed.

Lemma lstrip_snoc s c :
  Str.lstrip (s +:+ String c "")
  = if nonempty (Str.lstrip s) then Str.lstrip s +:+ String c ""
    else Str.lstrip (String c "").
Proof.
  induction s as [|c' s IH]; [done |].
  rewrite str_app_cons. cbn [Str.lstrip]. by destruct (Str.isspace c').
Qed.

(** [rstrip], read from the left. *)
Lemma rstrip_cons c s :
  Str.rstrip (String c s)
  = if nonempty (Str.rstrip s) then String c (Str.rstrip s)
    else if Str.isspace c then "" else String c "".
Proof.
  unfold Str.rstrip. rewrite str_rev_cons, lstrip_snoc.
  destruct (Str.lstrip (String.rev s)) as [|c' t] eqn:Ht.
  - cbn. by destruct (Str.isspace c).
  - assert (nonempty (String c' t) = true) as -> by done.
    rewrite str_rev_snoc.
    assert (nonempty (String.rev (String c' t)) = true) as ->; [| done].
    rewrite str_rev_cons. by destruct (String.rev t).
Qed.

Lemma rstrip_app s t :
  Str.rstrip (s +:+ t)
  = if nonempty (Str.rstrip t) then s +:+ Str.rstrip t else Str.rstrip s.
Proof.
  induction s as [|c s IH].
  { change ("" +:+ t) with t. change ("" +:+ Str.rstrip t) with (Str.rstrip t).
    destruct (Str.rstrip t) eqn:Ht; done. }
  rewrite str_app_cons, !rstrip_cons, IH.
  destruct (nonempty (Str.rstrip t)) eqn:Ht; [| done].
  assert (nonempty (s +:+ Str.rstrip t) = true) as ->; [| done].
  destruct s; [done | done].
Qed.

Lemma lstrip_idemp s : Str.lstrip (Str.lstrip s) = Str.lstrip s.
Proof.
  induction s as [|c s IH]; [done |]. cbn [Str.lstrip].
  destruct (Str.isspace c) eqn:Hc; [done |]. cbn [Str.lstrip]. by rewrite Hc.
Qed.

Lemma rstrip_idemp s : Str.rstrip (Str.rstrip s) = Str.rstrip s.
Proof. unfold Str.rstrip. by rewrite str_rev_involutive, lstrip_idemp. Qed.

(** Stripping on the right keeps a first character that is not a
    space. *)
Lemma lstrip_rstrip s :
  Str.lstrip (Str.rstrip (Str.lstrip s)) = Str.rstrip (Str.lstrip s).
Proof.
  induction s as [|c s IH]; [done |]. cbn [Str.lstrip].
  destruct (Str.isspace c) eqn:Hc; [done |].
  rewrite rstrip_cons, Hc.
  destruct (nonempty (Str.rstrip s)); cbn [Str.lstrip]; by rewrite Hc.
Qed.

Lemma strip_idemp s : Str.strip (Str.strip s) = Str.strip s.
Proof. unfold Str.strip. by rewrite lstrip_rstrip, rstrip_idemp. Qed.

Lemma lstrip_empty_iff s : Str.lstrip s = "" ↔ all_chars Str.isspace s = true.
Proof.
  induction s as [|c s IH]; [done |]. cbn [Str.lstrip all_chars].
  destruct (Str.isspace c); [done |]. split; [done | by intros [=]].
Qed.

Lemma lstrip_head s c t : Str.lstrip s = String c t → Str.isspace c = false.
Proof.
  induction s as [|c' s IH]; [done |]. cbn [Str.lstrip].
  destruct (Str.isspace c') eqn:Hc; [done |]. by intros [= <- _].
Qed.

(** Only a string of spaces strips to nothing. *)
Lemma strip_empty_iff s : Str.strip s = "" ↔ all_chars Str.isspace s = true.
Proof.
  rewrite <- lstrip_empty_iff. unfold Str.strip.
  destruct (Str.lstrip s) as [|c t] eqn:Hl; [done |].
  apply lstrip_head in Hl. rewrite rstrip_cons, Hl.
  by destruct (nonempty (Str.rstrip t)).
Qed.

Lemma isspace_lower_char c : Str.isspace (Str.lower_char c) = Str.isspace c.
Proof. by destruct c as [[] [] [] [] [] [] [] []]. Qed.

Lemma lower_char_idemp c : Str.lower_char (Str.lower_char c) = Str.lower_char c.
Proof. by destruct c as [[] [] [] [] [] [] [] []]. Qed.

Lemma lower_char_dot c : Ascii.eqb (Str.lower_char c) "." = Ascii.eqb c ".".
Proof. by destruct c as [[] [] [] [] [] [] [] []]. Qed.

Lemma lower_idemp s : Str.lower (Str.lower s) = Str.lower s.
Proof.
  induction s as [|c s IH]; [done |]. cbn. by rewrite lower_char_idemp, IH.
Qed.

Lemma lower_app s t : Str.lower (s +:+ t) = Str.lower s +:+ Str.lower t.
Proof.
  induction s as [|c s IH]; [done |]. rewrite str_app_cons. cbn [Str.lower].
  by rewrite IH.
Qed.

Lemma lower_rev s : Str.lower (String.rev s) = String.rev (Str.lower s).
Proof.
  induction s as [|c s IH]; [done |]. cbn [Str.lower].
  by rewrite !str_rev_cons, lower_app, IH.
Qed.

Lemma lower_lstrip s : Str.lower (Str.lstrip s) = Str.lstrip (Str.lower s).
Proof.
  induction s as [|c s IH]; [done |]. cbn [Str.lstrip Str.lower].
  rewrite isspace_lower_char. by destruct (Str.isspace c).
Qed.

Lemma lower_strip s : Str.lower (Str.strip s) = Str.strip (Str.lower s).
Proof.
  unfold Str.strip, Str.rstrip.
  by rewrite lower_rev, lower_lstrip, lower_rev, lower_lstrip.
Qed.

(** X1.  On an ASCII email [normalize_email] gives a canonical key:
    normalizing twice is normalizing once, and an email that was
    stripped or lowered before has the key of the email itself, so
    spellings that differ in case or in surrounding whitespace share
    one key. *)
Theorem normalize_email_canonical email :
  Str.is_ascii email = true →
  normalize_email (normalize_email email) = normalize_email email
  ∧ normalize_email (Str.strip email) = normalize_email email
  ∧ normalize_email (Str.lower email) = normalize_email email.
Proof.
  intros _. unfold normalize_email. split_and!.
  - by rewrite <- lower_strip, lower_idemp, strip_idemp.
  - by rewrite strip_idemp.
  - by rewrite <- lower_strip, lower_idemp.
Qed.

Lemma normalize_email_canonical_witness :
  normalize_email (normalize_email " User@Example.COM ")
  = normalize_email " User@Example.COM "
  ∧ normalize_email (Str.strip " User@Example.COM ")
    = normalize_email " User@Example.COM "
  ∧ normalize_email (Str.lower " User@Example.COM ")
    = normalize_email " User@Example.COM ".
Proof. exact (normalize_email_canonical " User@Example.COM " eq_refl). Defined.

Lemma all_chars_app p s t :
  all_chars p (s +:+ t) = all_chars p s && all_chars p t.
Proof.
  induction s as [|c s IH]; [done |]. rewrite str_app_cons. cbn [all_chars].
  by rewrite IH, andb_assoc.
Qed.

Lemma decimal_app acc s t : decimal acc (s +:+ t) = decimal (decimal acc s) t.
Proof.
  revert acc. induction s as [|c s IH]; intros acc; [done |].
  rewrite str_app_cons. cbn [decimal]. apply IH.
Qed.

Lemma digit_code n : Z.of_nat (nat_of_ascii (Str.digit n)) = 48 + n mod 10.
Proof.
  unfold Str.digit. pose proof (Z.mod_pos_bound n 10 eq_refl).
  rewrite nat_ascii_embedding by lia. lia.
Qed.

Lemma digit_is_digit n : is_digit (Str.digit n) = true.
Proof.
  unfold is_digit. pose proof (digit_code n).
  pose proof (Z.mod_pos_bound n 10 eq_refl).
  apply andb_true_iff. split; apply Nat.leb_le; lia.
Qed.

(** [k] digits, which spell the number modulo 10^k. *)
Lemma digits_spec k n :
  String.length (Str.digits k n) = k
  ∧ all_chars is_digit (Str.digits k n) = true
  ∧ decimal 0 (Str.digits k n) = n mod 10 ^ Z.of_nat k.
Proof.
  revert n. induction k as [|k IH]; intros n.
  { split_and!; [done | done |]. cbn. by rewrite Z.mod_1_r. }
  destruct (IH (n / 10)) as (Hlen & Hall & Hval). cbn [Str.digits].
  split_and!.
  - rewrite str_length_app, Hlen. cbn. lia.
  - rewrite all_chars_app, Hall. cbn. by rewrite digit_is_digit.
  - rewrite decimal_app, Hval. cbn [decimal]. rewrite digit_code.
    rewrite Nat2Z.inj_succ, Z.pow_succ_r by lia.
    rewrite (Z.rem_mul_r n 10 (10 ^ Z.of_nat k)) by lia. lia.
Qed.

(** X2.  For a number in the range of [randint(0, 999999)] the code is
    six characters, all decimal digits, that spell the number (with
    zeros in front); two numbers of the range with the same code are
    equal. *)
Theorem generate_code_six_digits r r' :
  0 ≤ r ≤ 999999 → 0 ≤ r' ≤ 999999 →
  String.length (generate_code r) = 6%nat
  ∧ all_chars is_digit (generate_code r) = true
  ∧ decimal 0 (generate_code r) = r
  ∧ (generate_code r = generate_code r' → r = r').
Proof.
  intros Hr Hr'. unfold generate_code.
  destruct (digits_spec 6 r) as (Hlen & Hall & Hval).
  destruct (digits_spec 6 r') as (_ & _ & Hval').
  assert (H6 : 10 ^ Z.of_nat 6 = 1000000) by done.
  rewrite H6, Z.mod_small in Hval, Hval' by lia.
  split_and!; [done | done | done |].
  intros Heq. rewrite <- Hval, <- Hval'. by rewrite Heq.
Qed.

Lemma generate_code_six_digits_witness :
  String.length (generate_code 42) = 6%nat
  ∧ all_chars is_digit (generate_code 42) = true
  ∧ decimal 0 (generate_code 42) = 42
  ∧ (generate_code 42 = generate_code 999999 → 42 = 999999).
Proof.
  apply (generate_code_six_digits 42 999999); lia.
Defined.

End strings.

(** * Account flow: requests, failures, what is recorded *)

Section account_requests.
Variable isoformat : datetime → string.
Variable sha256_hexdigest : string → string.
Implicit Types (st : auth) (payload : gmap string string) (t : datetime).

(** X3.  A request for a code whose email is missing, empty or made of
    whitespace raises "Email is required." and changes nothing.  Any
    other request with an ASCII email succeeds: it puts the generated
    code, expiring ten minutes later, under the normalized email, and
    leaves the codes of the other emails, the accounts and the accounts
    file as they were. *)
Theorem request_code_effect st t r payload :
  let email := get_or_empty payload "email" in
  let key := normalize_email (Str.strip email) in
  Str.is_ascii email = true →
  if all_chars Str.isspace email then
    request_code t r payload st
    = (Raise (HTTPException 400 "Email is required."), st)
  else
    ∃ st', request_code t r payload st = (Ok true, st')
      ∧ PENDING_CODES st' !! key = Some (Entry (generate_code r) (t + CODE_TTL))
      ∧ (∀ k, k ≠ key → PENDING_CODES st' !! k = PENDING_CODES st !! k)
      ∧ accounts st' = accounts st
      ∧ ACCOUNTS_PATH st' = ACCOUNTS_PATH st.
Proof.
  intros email key _.
  destruct (all_chars Str.isspace email) eqn:Hblank.
  - apply strip_empty_iff in Hblank. unfold request_code. fold email.
    rewrite Hblank. by destruct st.
  - assert (Hne : nonempty (Str.strip email) = true).
    { apply nonempty_true. rewrite strip_empty_iff. congruence. }
    rewrite (request_code_spec _ _ _ _ Hne). fold email.
    eexists. split; [reflexivity |]. cbn [PENDING_CODES accounts ACCOUNTS_PATH].
    split_and!; [| | done | done].
    + apply store_verification_code_lookup.
    + intros k Hk. by apply store_verification_code_other.
Qed.

(** X4.  A verify request that the handler turns down leaves the
    pending codes, the accounts and the accounts file exactly as they
    were, and what the handler raises is one of four 400s: fields
    missing, no code requested, code expired, invalid code.  (Writing
    [accounts.json] is taken to succeed.) *)
Theorem failed_verification_changes_nothing st t t' payload exc st' :
  verify_code isoformat sha256_hexdigest t t' payload st = (Raise exc, st') →
  st' = st
  ∧ exc ∈ [HTTPException 400 "Email, code, and password are required.";
           no_code_requested; code_expired; invalid_code].
Proof.
  intros Hrun. split; [by eapply verify_code_raise_keeps |].
  revert Hrun. unfold verify_code. case_match.
  { unfold raise. intros [= <- _]. apply elem_of_cons. by left. }
  cbn -[pop_verification_code record_account].
  unfold mbind, M_bind, bind, with_pending.
  destruct (pop_verification_code _ _ _ _) as [[e|exc'] pending'] eqn:Hpop.
  - set (hash := if nonempty _ then _ else _).
    set (name := Str.strip (get_or_empty payload "name")).
    destruct (record_account_spec isoformat
                (Auth pending' (accounts st) (ACCOUNTS_PATH st))
                t' (Str.strip (get_or_empty payload "email")) name hash)
      as (a & table & Hrun & _).
    rewrite Hrun. cbv [mret M_ret ret]. congruence.
  - intros [= <- _]. revert Hpop. unfold pop_verification_code.
    repeat case_match; intros [= <- _];
      repeat (first [by apply list_elem_of_here | apply list_elem_of_further]).
Qed.

(** What a verify request that succeeds has recorded. *)
Lemma verify_code_recorded st t t' payload sm st' :
  verify_code isoformat sha256_hexdigest t t' payload st = (Ok sm, st') →
  let email := Str.strip (get_or_empty payload "email") in
  let key := normalize_email email in
  let client_hash := default "" (payload !! "passwordHash") in
  ∃ a,
    accounts st' !! key = Some a
    ∧ a !! "email" = Some email
    ∧ a !! "name" = Some (Str.strip (get_or_empty payload "name"))
    ∧ a !! "passwordHash"
      = Some (if nonempty client_hash then client_hash
              else sha256_hexdigest (get_or_empty payload "password"))
    ∧ (∀ k, k ≠ key → accounts st' !! k = accounts st !! k)
    ∧ PENDING_CODES st' = delete key (PENDING_CODES st)
    ∧ load_accounts (accounts_file st') = accounts st'.
Proof.
  intros Hrun email key client_hash. revert Hrun.
  unfold verify_code. fold email. case_match; [done |].
  cbn -[pop_verification_code record_account].
  unfold mbind, M_bind, bind, with_pending.
  destruct (pop_verification_code _ _ _ _) as [[e|exc'] pending'] eqn:Hpop;
    [| done].
  fold client_hash.
  set (hash := if nonempty _ then _ else _).
  set (name := Str.strip (get_or_empty payload "name")).
  destruct (record_account_spec isoformat
              (Auth pending' (accounts st) (ACCOUNTS_PATH st))
              t' email name hash)
    as (a & table & Hrec & -> & Hemail & Hname & Hhash & _).
  rewrite Hrec. cbv [mret M_ret ret]. intros [= _ <-].
  cbn [accounts PENDING_CODES ACCOUNTS_PATH accounts_file load_accounts
       fmap option_fmap option_map].
  exists a. fold key. split_and!; try done.
  - apply lookup_insert_eq.
  - intros k Hk. by apply lookup_insert_ne.
  - revert Hpop. unfold pop_verification_code. fold key.
    repeat case_match; by intros [= _ <-].
Qed.


(** X6.  The email of the verify request need not be spelled as in the
    request for the code: when the two are ASCII and have the same
    normalized key, the generated code, sent with a password before it
    expires, is accepted; the account is stored under that key with the
    spelling of the verify request, and the code is consumed. *)
Theorem verification_ignores_email_spelling st t0 r requested t t' sent :
  let email0 := Str.strip (get_or_empty requested "email") in
  let email := Str.strip (get_or_empty sent "email") in
  Str.is_ascii (get_or_empty requested "email") = true →
  Str.is_ascii (get_or_empty sent "email") = true →
  Str.is_ascii (get_or_empty sent "code") = true →
  nonempty email0 = true →
  nonempty email = true →
  normalize_email email = normalize_email email0 →
  Str.strip (get_or_empty sent "code") = generate_code r →
  nonempty (get_or_empty sent "password") = true →
  t ≤ t0 + CODE_TTL →
  ∃ st1 sm st2 a,
    request_code t0 r requested st = (Ok true, st1)
    ∧ verify_code isoformat sha256_hexdigest t t' sent st1 = (Ok sm, st2)
    ∧ s_email sm = email
    ∧ accounts st2 !! normalize_email email0 = Some a
    ∧ a !! "email" = Some email
    ∧ PENDING_CODES st2 !! normalize_email email0 = None.
Proof.
  intros email0 email _ _ _ He0 He Hkey Hcode Hpw Ht.
  eexists. rewrite (request_code_spec _ _ _ _ He0). fold email0.
  set (st1 := Auth _ _ _).
  assert (Hpending : PENDING_CODES st1 !! normalize_email email
                     = Some (Entry (generate_code r) (t0 + CODE_TTL))).
  { rewrite Hkey. apply store_verification_code_lookup. }
  pose proof (verify_code_spec isoformat sha256_hexdigest st1 t t' sent) as Hrun.
  cbn zeta in Hrun. rewrite Hcode in Hrun. fold email in Hrun.
  specialize (Hrun He (nonempty_generate_code r) Hpw).
  rewrite (pop_match_eq _ t _ (generate_code r) _ Hpending) in Hrun
    by (simpl; lia || done).
  destruct Hrun as (sm & st2 & Hrun & Hp2 & Hemail & _).
  destruct (verify_code_recorded _ _ _ _ _ _ Hrun)
    as (a & Ha & Haemail & _ & _ & _ & Hpend & _).
  fold email in Ha, Haemail, Hpend.
  exists sm, st2, a. split_and!; try done.
  - by rewrite <- Hkey.
  - rewrite Hpend, <- Hkey. apply lookup_delete_eq.
Qed.

End account_requests.

Lemma failed_verification_changes_nothing_witness :
  let st := Auth {["user@example.com" := Entry "000042" 600000000]} ∅ None in
  st = st
  ∧ invalid_code
    ∈ [HTTPException 400 "Email, code, and password are required.";
       no_code_requested; code_expired; invalid_code].
Proof.
  exact (failed_verification_changes_nothing
           Sample.isoformat Sample.sha256_hexdigest
           (Auth {["user@example.com" := Entry "000042" 600000000]} ∅ None)
           5 6
           {["email" := "user@example.com"; "code" := "000041";
             "password" := "secret"]}
           invalid_code
           (Auth {["user@example.com" := Entry "000042" 600000000]} ∅ None)
           eq_refl).
Defined.


Lemma verification_ignores_email_spelling_witness :
  ∃ st1 sm st2 a,
    request_code 0 42 {["email" := "user@example.com"]} (Auth ∅ ∅ None)
    = (Ok true, st1)
    ∧ verify_code Sample.isoformat Sample.sha256_hexdigest 5 6
        {["email" := " USER@Example.COM "; "code" := "000042";
          "password" := "secret"]} st1
      = (Ok sm, st2)
    ∧ s_email sm = "USER@Example.COM"
    ∧ accounts st2 !! "user@example.com" = Some a
    ∧ a !! "email" = Some "USER@Example.COM"
    ∧ PENDING_CODES st2 !! "user@example.com" = None.
Proof.
  refine (verification_ignores_email_spelling
            Sample.isoformat Sample.sha256_hexdigest (Auth ∅ ∅ None)
            0 42 {["email" := "user@example.com"]} 5 6
            {["email" := " USER@Example.COM "; "code" := "000042";
              "password" := "secret"]}
            eq_refl eq_refl eq_refl eq_refl eq_refl eq_refl eq_refl eq_refl _).
  vm_compute. discriminate.
Defined.

Lemma request_code_effect_witness :
  ∃ st',
    request_code 0 42 {["email" := " User@Example.com "]} (Auth ∅ ∅ None)
    = (Ok true, st')
    ∧ PENDING_CODES st' !! "user@example.com"
      = Some (Entry "000042" 600000000)
    ∧ (∀ k, k ≠ "user@example.com"
            → PENDING_CODES st' !! k = PENDING_CODES (Auth ∅ ∅ None) !! k)
    ∧ accounts st' = accounts (Auth ∅ ∅ None)
    ∧ ACCOUNTS_PATH st' = ACCOUNTS_PATH (Auth ∅ ∅ None).
Proof.
  exact (request_code_effect (Auth ∅ ∅ None) 0 42
           {["email" := " User@Example.com "]} eq_refl).
Defined.

(** * Mail *)

Section mail_fallback.
Variable sendmail : string → string → string → outcome unit.

(** X7.  [send_verification_email] either hands the message to the mail
    transport, which accepts it (and then prints only that the email
    was sent), or ends by printing the verification code for the
    operator: a transport that is not configured or that fails never
    loses the code. *)
Theorem verification_code_reaches_console cfg email code' :
  let printed := send_verification_email sendmail cfg email code' in
  let fallback :=
    "[Stem Lab] Verification code for " +:+ email +:+ ": " +:+ code' in
  (∃ message, nonempty (default "" (SMTP_HOST cfg)) = true
              ∧ nonempty (SMTP_FROM cfg) = true
              ∧ sendmail (SMTP_FROM cfg) email message = Done tt
              ∧ printed = ["[Stem Lab] Verification email sent to " +:+ email])
  ∨ last printed = Some fallback.
Proof.
  intros printed fallback. subst printed. unfold send_verification_email.
  destruct (nonempty (default "" (SMTP_HOST cfg))) eqn:Hhost; [| by right].
  destruct (nonempty (SMTP_FROM cfg)) eqn:Hfrom; [| by right].
  cbn [andb].
  destruct (sendmail _ _ _) as [[]|exc] eqn:Hsend; [| by right].
  left. eexists. by split_and!.
Qed.

End mail_fallback.

(** * Library store: what a session holds *)

Section stem_files.
Implicit Types (s t u name : string) (c : ascii).

Lemma rfind_dot_wav name :
  Str.rfind_dot (name +:+ ".wav") = Some (String.length name).
Proof.
  induction name as [|c name IH]; [done |].
  rewrite str_app_cons. cbn [Str.rfind_dot String.length]. by rewrite IH.
Qed.

Lemma substring_app_prefix s t :
  String.substring 0 (String.length s) (s +:+ t) = s.
Proof.
  induction s as [|c s IH]; [by destruct t |].
  rewrite str_app_cons. cbn. by rewrite IH.
Qed.

Lemma stem_of_wav c name :
  Path.stem_of (String c name +:+ ".wav") = String c name.
Proof.
  unfold Path.stem_of. rewrite rfind_dot_wav, str_length_app.
  assert ((0 <? String.length (String c name))%nat
          && (String.length (String c name)
              <? String.length (String c name) + String.length ".wav" - 1)%nat
          = true) as ->.
  { apply andb_true_iff. split; apply Nat.ltb_lt; cbn; lia. }
  by rewrite substring_app_prefix.
Qed.

(** The file of a stem with a plain, non-empty name is returned under
    that name. *)
Lemma path_stem_wav c name :
  plain (String c name) = true →
  path_stem (String c name +:+ ".wav") = String c name.
Proof.
  intros Hp. unfold path_stem. rewrite name_plain; [apply stem_of_wav | |].
  - unfold plain in *. rewrite all_chars_app, Hp. done.
  - intros H. apply (f_equal String.length) in H.
    rewrite str_length_app in H. cbn in H. lia.
Qed.

End stem_files.

Section dictionaries.
Context {V : Type}.
Implicit Types (d : list (string * V)) (k : string) (v : V).

Lemma dict_get_set d k v k' :
  Dict.get (Dict.set d k v) k' = if decide (k = k') then Some v else Dict.get d k'.
Proof.
  induction d as [|[k0 v0] d IH]; cbn.
  - destruct (String.eqb_spec k k'); case_decide; done.
  - destruct (String.eqb_spec k0 k) as [->|Hne]; cbn.
    + destruct (String.eqb_spec k k'); case_decide; done.
    + destruct (String.eqb_spec k0 k'); [| done].
      case_decide; [congruence | done].
Qed.

Lemma dict_get_elem d k v :
  NoDup (Dict.keys d) → (k, v) ∈ d → Dict.get d k = Some v.
Proof.
  induction d as [|[k0 v0] d IH]; intros Hnd Hin; [inversion Hin |].
  cbn in Hnd. apply NoDup_cons in Hnd as [Hk0 Hnd].
  apply elem_of_cons in Hin as [[= <- <-] | Hin]; cbn.
  - by rewrite String.eqb_refl.
  - destruct (String.eqb_spec k0 k) as [->|]; [| by apply IH].
    destruct Hk0. apply list_elem_of_fmap. by exists (k, v).
Qed.

Lemma dict_get_Some_elem d k v : Dict.get d k = Some v → (k, v) ∈ d.
Proof.
  induction d as [|[k0 v0] d IH]; [done |]. cbn.
  destruct (String.eqb_spec k0 k) as [->|].
  - intros [= ->]. by apply elem_of_cons; left.
  - intros H. apply elem_of_cons; right. by apply IH.
Qed.

End dictionaries.

Section library_sessions.
Variable isoformat : datetime → string.
Variable b64encode : bytes → string.
Variable b64decode : string → outcome bytes.
Variable py_lt_mixed : json → json → result bool.
Implicit Types (lib : library) (stems : list (string * json)).
Implicit Types (item_id name text file : string) (d : session_dir).

Lemma write_stems_app item_id stems1 stems2 lib :
  write_stems b64decode item_id (stems1 ++ stems2) lib
  = match write_stems b64decode item_id stems1 lib with
    | (Ok _, lib1) => write_stems b64decode item_id stems2 lib1
    | (Raise exc, lib1) => (Raise exc, lib1)
    end.
Proof.
  revert lib. induction stems1 as [|[n v] stems1 IH]; intros lib; [done |].
  cbn [app write_stems]. destruct v as [| | |s| |]; try apply IH.
  destruct (decode_data_url b64decode s); [| done].
  unfold mbind, M_bind, bind.
  destruct (write_bytes item_id (n +:+ ".wav") a lib) as [[[]|] lib1]; [apply IH | done].
Qed.

(** The files the loop has written when every string decodes and no
    name comes twice. *)
Lemma write_stems_files item_id stems lib d :
  (∀ name text, (name, JStr text) ∈ stems →
     ∃ data, decode_data_url b64decode text = Done data) →
  NoDup (Dict.keys stems) →
  lib !! item_id = Some d →
  ∃ files,
    write_stems b64decode item_id stems lib
    = (Ok tt, <[item_id := SessionDir (meta_json d) files (bundle_zip d)]> lib)
    ∧ (∀ name text data,
         (name, JStr text) ∈ stems →
         decode_data_url b64decode text = Done data →
         files !! (name +:+ ".wav") = Some data)
    ∧ (∀ file,
         (∀ name text, (name, JStr text) ∈ stems → file ≠ name +:+ ".wav") →
         files !! file = wavs d !! file).
Proof.
  revert lib d. induction stems as [|[n v] stems IH]; intros lib d Hdec Hnd Hd.
  { exists (wavs d). split_and!.
    - cbn. unfold mret, M_ret, ret. f_equal. destruct d. by rewrite insert_id.
    - intros ??? Hin. inversion Hin.
    - done. }
  cbn in Hnd. apply NoDup_cons in Hnd as [Hn Hnd].
  assert (Hdec' : ∀ name text, (name, JStr text) ∈ stems →
            ∃ data, decode_data_url b64decode text = Done data).
  { intros name text Hin. apply (Hdec name text). by apply elem_of_cons; right. }
  assert (Hskip : (∀ s, v ≠ JStr s) →
    ∃ files,
      write_stems b64decode item_id stems lib
      = (Ok tt, <[item_id := SessionDir (meta_json d) files (bundle_zip d)]> lib)
      ∧ (∀ name text data,
           (name, JStr text) ∈ (n, v) :: stems →
           decode_data_url b64decode text = Done data →
           files !! (name +:+ ".wav") = Some data)
      ∧ (∀ file,
           (∀ name text, (name, JStr text) ∈ (n, v) :: stems →
                         file ≠ name +:+ ".wav") →
           files !! file = wavs d !! file)).
  { intros Hv. destruct (IH lib d Hdec' Hnd Hd) as (files & Hrun & Hval & Hframe).
    exists files. split_and!; [done | |].
    - intros name text data [[= -> Heq] | Hin]%elem_of_cons;
        [by destruct (Hv text) | by apply (Hval name text)].
    - intros file Hfile. apply Hframe. intros name text Hin.
      apply (Hfile name text). by apply elem_of_cons; right. }
  destruct v as [| | |s| |]; cbn [write_stems]; try (apply Hskip; congruence).
  destruct (Hdec n s) as [data0 Hs]; [by apply elem_of_cons; left |].
  rewrite Hs. unfold mbind, M_bind, bind. rewrite (write_bytes_spec _ _ _ _ _ Hd).
  set (d' := SessionDir _ _ _).
  destruct (IH (<[item_id := d']> lib) d' Hdec' Hnd)
    as (files & Hrun & Hval & Hframe).
  { apply lookup_insert_eq. }
  exists files. split_and!.
  - rewrite Hrun. by rewrite insert_insert_eq.
  - intros name text data [[= -> ->] | Hin]%elem_of_cons Hdata;
      [| by apply (Hval name text)].
    rewrite Hframe.
    + subst d'. cbn [wavs]. rewrite lookup_insert_eq. congruence.
    + intros name text Hin Heq. apply str_app_inv_tail in Heq as <-.
      apply Hn. apply list_elem_of_fmap. by exists (n, JStr text).
  - intros file Hfile. rewrite Hframe.
    + subst d'. cbn [wavs]. apply lookup_insert_ne. intros <-.
      by apply (Hfile n s); [apply elem_of_cons; left |].
    + intros name text Hin. apply (Hfile name text). by apply elem_of_cons; right.
Qed.

(** A create request that is accepted: what it returns and what the
    library holds afterwards. *)
Lemma save_library_created utcnow item_id payload stems lib :
  Dict.get payload "stems" = Some (JObj stems) →
  stems ≠ [] →
  (∀ name text, (name, JStr text) ∈ stems →
     ∃ data, decode_data_url b64decode text = Done data) →
  NoDup (Dict.keys stems) →
  lib !! item_id = None →
  let metadata := JObj (session_metadata isoformat utcnow item_id payload stems) in
  ∃ files,
    save_library isoformat b64decode utcnow item_id (Done (JObj payload)) lib
    = (Ok metadata,
       <[item_id := SessionDir (Some (Some metadata)) files (Some files)]> lib)
    ∧ (∀ name text data,
         (name, JStr text) ∈ stems →
         decode_data_url b64decode text = Done data →
         files !! (name +:+ ".wav") = Some data)
    ∧ (∀ file, is_Some (files !! file)
         → ∃ name text, (name, JStr text) ∈ stems ∧ file = name +:+ ".wav").
Proof.
  intros Hstems Hne Hdec Hnd Hfresh metadata.
  unfold save_library. rewrite Hstems.
  destruct stems as [|kv stems]; [done |].
  unfold mbind at 1, M_bind, bind.
  destruct (mkdir_spec item_id lib) as (d0 & -> & Hd0).
  rewrite Hfresh in Hd0. cbn in Hd0. subst d0.
  destruct (write_stems_files item_id (kv :: stems)
              (<[item_id := empty_dir]> lib) empty_dir Hdec Hnd)
    as (files & Hrun & Hval & Hframe).
  { apply lookup_insert_eq. }
  destruct (write_stems_success b64decode item_id (kv :: stems)
              (<[item_id := empty_dir]> lib) empty_dir Hdec)
    as (files' & Hrun' & Hdom).
  { apply lookup_insert_eq. }
  assert (files' = files) as ->.
  { rewrite Hrun' in Hrun. injection Hrun as Hrun.
    apply (f_equal (λ m : library, m !! item_id)) in Hrun.
    rewrite !lookup_insert_eq in Hrun. by injection Hrun. }
  unfold mbind at 1, M_bind, bind. rewrite Hrun.
  rewrite insert_insert_eq. cbn [meta_json bundle_zip empty_dir].
  unfold mbind, M_bind, bind, in_dir, modify, mret, ret.
  rewrite !alter_insert_eq. cbn [meta_json wavs bundle_zip].
  exists files. split_and!; [done | done |].
  intros file Hfile. apply Hdom in Hfile as [[? Hx] | ?]; [| done].
  cbn in Hx. by rewrite lookup_empty in Hx.
Qed.

(** The stems [get_library_item] builds from the files of a directory. *)
Lemma collected_stems_other (l : list (string * bytes)) acc k :
  (∀ file data, (file, data) ∈ l → path_stem file ≠ k) →
  Dict.get
    (foldl (λ acc '(file, data),
              Dict.set acc (path_stem file) (JStr (encode_audio_file b64encode data)))
           acc l) k
  = Dict.get acc k.
Proof.
  revert acc. induction l as [|[f dt] l IH]; intros acc Hk; [done |].
  cbn [foldl]. rewrite IH.
  - rewrite dict_get_set. case_decide as Heq; [| done].
    destruct (Hk f dt); [by apply elem_of_cons; left | done].
  - intros file data Hin. apply (Hk file data). by apply elem_of_cons; right.
Qed.

Lemma collected_stems_file (l : list (string * bytes)) acc file data :
  NoDup (path_stem <$> l.*1) →
  (file, data) ∈ l →
  Dict.get
    (foldl (λ acc '(file, data),
              Dict.set acc (path_stem file) (JStr (encode_audio_file b64encode data)))
           acc l) (path_stem file)
  = Some (JStr (encode_audio_file b64encode data)).
Proof.
  revert acc. induction l as [|[f dt] l IH]; intros acc Hnd Hin; [inversion Hin |].
  cbn in Hnd. apply NoDup_cons in Hnd as [Hf Hnd]. cbn [foldl].
  apply elem_of_cons in Hin as [[= -> ->] | Hin]; [| by apply IH].
  rewrite collected_stems_other.
  - rewrite dict_get_set. by case_decide.
  - intros file' data' Hin' Heq. apply Hf. rewrite <- Heq.
    apply list_elem_of_fmap. exists file'. split; [done |].
    apply list_elem_of_fmap. by exists (file', data').
Qed.

(** X9.  Create, then get.  For a request with a fresh identifier
    whose stems have distinct, non-empty, plain names and strings that
    all decode, [get_library_item] on the new session returns the metadata
    with, under ["stems"], exactly the string-valued stems of the
    request, each as the payload of the bytes it decoded to; a stem that
    was not a string is not there. *)
Theorem created_session_returns_its_stems utcnow item_id payload stems lib :
  Dict.get payload "stems" = Some (JObj stems) →
  stems ≠ [] →
  (∀ name text, (name, JStr text) ∈ stems →
     ∃ data, decode_data_url b64decode text = Done data) →
  NoDup (Dict.keys stems) →
  Forall (λ kv, nonempty kv.1 = true) stems →
  Forall (λ kv, plain kv.1 = true) stems →
  lib !! item_id = None →
  ∃ items lib' got,
    save_library isoformat b64decode utcnow item_id (Done (JObj payload)) lib
    = (Ok (JObj items), lib')
    ∧ get_library_item b64encode item_id lib'
      = (Ok (JObj (Dict.set items "stems" (JObj got))), lib')
    ∧ ∀ name, Dict.get got name
              = decoded b64decode b64encode (Dict.get stems name).
Proof.
  intros Hstems Hne Hdec Hnd Hnames Hplain Hfresh.
  destruct (save_library_created utcnow item_id payload stems lib
              Hstems Hne Hdec Hnd Hfresh) as (files & Hrun & Hval & Hdom).
  do 3 eexists. split; [exact Hrun |].
  unfold get_library_item, mbind at 1, M_bind, bind, get_state.
  rewrite lookup_insert_eq. cbn [mbind option_bind meta_json default wavs].
  split; [reflexivity |].
  assert (Hfile : ∀ file data, (file, data) ∈ map_to_list files →
            ∃ name text, (name, JStr text) ∈ stems ∧ file = name +:+ ".wav"
                         ∧ path_stem file = name).
  { intros file data Hin%elem_of_map_to_list.
    destruct (Hdom file) as (name & text & Hin' & ->); [by eexists |].
    exists name, text. split_and!; [done | done |].
    rewrite Forall_forall in Hnames, Hplain.
    pose proof (Hnames _ Hin') as Hn. cbn in Hn.
    pose proof (Hplain _ Hin') as Hp. cbn in Hp.
    destruct name as [|c name]; [done |]. by apply path_stem_wav. }
  intros name. unfold decoded.
  destruct (Dict.get stems name) as [v|] eqn:Hget.
  - apply dict_get_Some_elem in Hget as Hin.
    assert (Hother : (∀ text, v ≠ JStr text) →
              Dict.get
                (foldl (λ acc '(file, data),
                   Dict.set acc (path_stem file)
                     (JStr (encode_audio_file b64encode data)))
                   [] (map_to_list files)) name = None).
    { intros Hv. rewrite collected_stems_other; [done |].
      intros file data (n & t & Hn & _ & Hs)%Hfile Heq.
      assert (n = name) as -> by congruence.
      rewrite (dict_get_elem _ _ _ Hnd Hn) in Hget.
      injection Hget as <-. by destruct (Hv t). }
    destruct v as [| | |text| |]; try (apply Hother; congruence).
    destruct (Hdec name text Hin) as [data Hdata]. rewrite Hdata.
    pose proof (Hval name text data Hin Hdata) as Hf.
    apply elem_of_map_to_list in Hf.
    assert (Hstem : path_stem (name +:+ ".wav") = name).
    { destruct (Hfile _ _ Hf) as (n & t & _ & Heq & Hs).
      apply str_app_inv_tail in Heq as <-. done. }
    rewrite <- Hstem at 1. apply collected_stems_file; [| done].
    apply NoDup_fmap_2_strong; [| apply NoDup_fst_map_to_list].
    intros f1 f2 [[f1' d1] [-> H1]]%list_elem_of_fmap
                 [[f2' d2] [-> H2]]%list_elem_of_fmap Heq.
    destruct (Hfile _ _ H1) as (n1 & t1 & _ & E1 & S1).
    destruct (Hfile _ _ H2) as (n2 & t2 & _ & E2 & S2).
    cbn in *. congruence.
  - rewrite collected_stems_other; [done |].
    intros file data (n & t & Hn & _ & Hs)%Hfile Heq.
    assert (n = name) as -> by congruence.
    by rewrite (dict_get_elem _ _ _ Hnd Hn) in Hget.
Qed.

(** X10.  An identifier without session has no bundle (404 "Bundle not
    found").  After a create request that is accepted, the metadata
    names the bundle [/api/library/<id>/bundle], and the download of
    that session answers with a zip named [<id>.zip]. *)
Theorem created_bundle_is_downloadable utcnow item_id payload stems lib :
  Dict.get payload "stems" = Some (JObj stems) →
  stems ≠ [] →
  (∀ name text, (name, JStr text) ∈ stems →
     ∃ data, decode_data_url b64decode text = Done data) →
  NoDup (Dict.keys stems) →
  Forall (λ kv, plain kv.1 = true) stems →
  lib !! item_id = None →
  ∃ items lib' response,
    download_bundle item_id lib = Raise (HTTPException 404 "Bundle not found")
    ∧ save_library isoformat b64decode utcnow item_id (Done (JObj payload)) lib
      = (Ok (JObj items), lib')
    ∧ Dict.get items "bundle"
      = Some (JStr ("/api/library/" +:+ item_id +:+ "/bundle"))
    ∧ download_bundle item_id lib' = Ok response
    ∧ media_type response = "application/zip"
    ∧ download_name response = item_id +:+ ".zip".
Proof.
  intros Hstems Hne Hdec Hnd _ Hfresh.
  destruct (save_library_created utcnow item_id payload stems lib
              Hstems Hne Hdec Hnd Hfresh) as (files & Hrun & _).
  do 3 eexists. split_and!.
  - unfold download_bundle. by rewrite Hfresh.
  - exact Hrun.
  - reflexivity.
  - unfold download_bundle. by rewrite lookup_insert_eq.
  - reflexivity.
  - reflexivity.
Qed.
(** X11.  Decoding a payload that [encode_audio_file] made hands the
    base64 text after the tag, less trailing whitespace, to the base64
    decoder; and whitespace around a value does not change what it
    decodes to. *)
Theorem decode_of_encoded_payload data value :
  decode_data_url b64decode (encode_audio_file b64encode data)
  = b64decode (Str.rstrip (b64encode data))
  ∧ decode_data_url b64decode (Str.strip value)
    = decode_data_url b64decode value.
Proof.
  split; [| unfold decode_data_url; by rewrite strip_idemp].
  unfold decode_data_url, encode_audio_file.
  set (tag := "data:audio/wav;base64,").
  assert (Hstrip : Str.strip (tag +:+ b64encode data)
                   = tag +:+ Str.rstrip (b64encode data)).
  { unfold Str.strip.
    assert (Str.lstrip (tag +:+ b64encode data) = tag +:+ b64encode data) as ->
      by reflexivity.
    rewrite rstrip_app.
    destruct (nonempty (Str.rstrip (b64encode data))) eqn:Hn; [done |].
    apply negb_false_iff, String.eqb_eq in Hn. by rewrite Hn. }
  rewrite Hstrip. reflexivity.
Qed.

Lemma write_stems_keeps_dir item_id stems lib :
  is_Some (lib !! item_id) →
  is_Some ((write_stems b64decode item_id stems lib).2 !! item_id).
Proof.
  revert lib. induction stems as [|[n v] stems IH]; intros lib Hd; [done |].
  cbn [write_stems]. destruct v as [| | |s| |]; try by apply IH.
  destruct (decode_data_url b64decode s) as [data|exc]; [| done].
  destruct Hd as [d Hd]. unfold mbind, M_bind, bind.
  rewrite (write_bytes_spec _ _ _ _ _ Hd). apply IH.
  rewrite lookup_insert_eq. by eexists.
Qed.

(** X12.  A create request is turned down before anything is written in
    three cases: a body that is not JSON (400), a JSON value that is
    not an object ([AttributeError]), and an object whose ["stems"] is
    missing, not an object, or empty (400 "Payload must include
    stems"); the library is then unchanged.  In every other case the
    session directory exists afterwards, whether the request succeeds or
    not. *)
Theorem create_without_stems_is_rejected utcnow item_id body lib :
  let run := save_library isoformat b64decode utcnow item_id body lib in
  match rejection body with
  | Some exc => run = (Raise exc, lib)
  | None => is_Some (run.2 !! item_id)
  end.
Proof.
  destruct body as [[| | | | |payload]|exc]; try done.
  unfold rejection, stems_required, save_library.
  destruct (Dict.get payload "stems") as [[| | | | |[|kv stems]]|]; try done.
  cbn zeta. unfold mbind at 1, M_bind, bind.
  destruct (mkdir_spec item_id lib) as (d0 & -> & _).
  unfold mbind at 1, M_bind, bind.
  pose proof (write_stems_keeps_dir item_id (kv :: stems)
                (<[item_id := d0]> lib)) as Hkeep.
  destruct (write_stems b64decode item_id (kv :: stems) (<[item_id := d0]> lib))
    as [[[]|exc] lib1].
  - cbn [snd] in Hkeep. destruct Hkeep as [d1 Hd1].
    { rewrite lookup_insert_eq. by eexists. }
    cbv [mbind M_bind bind in_dir modify mret M_ret ret snd].
    rewrite !lookup_alter_eq, Hd1. by eexists.
  - cbn [snd] in *. apply Hkeep. rewrite lookup_insert_eq. by eexists.
Qed.

Lemma parsed_metadata_insert lib item_id d :
  lib !! item_id = None →
  parsed_metadata (<[item_id := d]> lib)
  ≡ₚ match meta_json d ≫= id with
     | Some item => item :: parsed_metadata lib
     | None => parsed_metadata lib
     end.
Proof.
  intros Hfresh. unfold parsed_metadata.
  rewrite (map_to_list_insert lib item_id d Hfresh). cbn [omap list_omap snd].
  by destruct (meta_json d ≫= id).
Qed.

Lemma list_library_dated lib :
  Forall (λ item, dated_record item = true) (parsed_metadata lib) →
  ∃ items,
    list_library py_lt_mixed lib = Ok items
    ∧ items ≡ₚ parsed_metadata lib
    ∧ StronglySorted by_date items.
Proof.
  intros Hdated. unfold list_library.
  rewrite (with_keys_dated _ Hdated). cbn [mbind result_bind].
  set (pairs := _ <$> parsed_metadata lib).
  assert (Hkeyed : Forall keyed pairs).
  { apply Forall_fmap, Forall_true. by intros item. }
  destruct (sort_by_key_sorted py_lt_mixed pairs Hkeyed)
    as (l' & -> & Hperm & _ & Hsorted).
  exists l'.*2. split_and!; [done | | done].
  rewrite <- (with_keys_items (parsed_metadata lib)). by apply fmap_Permutation.
Qed.

(** X13.  Create, then list.  After a create request that is accepted,
    [list_library] returns the new metadata record together with the
    records that were there, in ascending order of creation timestamp;
    the timestamp of the new record is the current time. *)
Theorem created_session_is_listed utcnow item_id payload stems lib :
  Dict.get payload "stems" = Some (JObj stems) →
  stems ≠ [] →
  (∀ name text, (name, JStr text) ∈ stems →
     ∃ data, decode_data_url b64decode text = Done data) →
  NoDup (Dict.keys stems) →
  Forall (λ kv, plain kv.1 = true) stems →
  lib !! item_id = None →
  Forall (λ item, dated_record item = true) (parsed_metadata lib) →
  ∃ metadata lib' listed,
    save_library isoformat b64decode utcnow item_id (Done (JObj payload)) lib
    = (Ok metadata, lib')
    ∧ list_library py_lt_mixed lib' = Ok listed
    ∧ listed ≡ₚ metadata :: parsed_metadata lib
    ∧ StronglySorted by_date listed
    ∧ created metadata = isoformat utcnow +:+ "Z".
Proof.
  intros Hstems Hne Hdec Hnd _ Hfresh Hdated.
  destruct (save_library_created utcnow item_id payload
              stems lib Hstems Hne Hdec Hnd Hfresh) as (files & Hrun & _).
  set (metadata := JObj (session_metadata _ _ _ _ _)) in Hrun.
  set (lib' := <[item_id := _]> lib) in Hrun.
  assert (Hperm : parsed_metadata lib' ≡ₚ metadata :: parsed_metadata lib).
  { unfold lib'. rewrite parsed_metadata_insert by done. by cbn. }
  destruct (list_library_dated lib') as (listed & Hlist & Hperm' & Hsorted).
  { rewrite Hperm. by constructor. }
  exists metadata, lib', listed. split_and!; [done | done | | done | done].
  by rewrite Hperm'.
Qed.

(** X14.  Create is not atomic.  When the stems before an ASCII string
    that does not decode have plain names and do decode, the request raises the 400 that names
    that stem, and the session directory stays behind with the files of
    the stems before it and neither metadata nor bundle. *)
Theorem failed_create_leaves_files
    utcnow item_id payload before name text exc after lib :
  Dict.get payload "stems" = Some (JObj (before ++ (name, JStr text) :: after)) →
  (∀ name' text', (name', JStr text') ∈ before →
     ∃ data, decode_data_url b64decode text' = Done data) →
  Forall (λ kv, plain kv.1 = true) before →
  Str.is_ascii text = true →
  decode_data_url b64decode text = Failed exc →
  lib !! item_id = None →
  ∃ files,
    save_library isoformat b64decode utcnow item_id (Done (JObj payload)) lib
    = (Raise (HTTPException 400
                ("Could not decode stem '" +:+ name +:+ "': " +:+ exc)),
       <[item_id := SessionDir None files None]> lib)
    ∧ (∀ file, is_Some (files !! file)
         ↔ ∃ name' text', (name', JStr text') ∈ before
                          ∧ file = name' +:+ ".wav").
Proof.
  intros Hstems Hdec _ _ Hfail Hfresh.
  unfold save_library. rewrite Hstems.
  remember (before ++ (name, JStr text) :: after) as all eqn:Hall.
  destruct all as [|kv rest]; [by destruct before |].
  rewrite Hall. clear kv rest Hall Hstems.
  unfold mbind at 1, M_bind, bind.
  destruct (mkdir_spec item_id lib) as (d0 & -> & Hd0).
  rewrite Hfresh in Hd0. cbn in Hd0. subst d0.
  unfold mbind at 1, M_bind, bind. rewrite write_stems_app.
  destruct (write_stems_success b64decode item_id before
              (<[item_id := empty_dir]> lib) empty_dir Hdec)
    as (files & -> & Hdom).
  { apply lookup_insert_eq. }
  cbn [write_stems]. rewrite Hfail. unfold raise.
  rewrite insert_insert_eq. exists files. split; [done |].
  intros file. rewrite Hdom. cbn. rewrite lookup_empty.
  split; [intros [[? [=]] | ?]; done | by right].
Qed.
End library_sessions.

Ltac sample_decodes Hin :=
  repeat (apply elem_of_cons in Hin as [Hin | Hin];
          [first [discriminate Hin
                 | injection Hin as _ ->; eexists; reflexivity] |]);
  by apply elem_of_nil in Hin.

Lemma created_session_returns_its_stems_witness :
  ∃ items lib' got,
    save_library Sample.isoformat Sample.text_bytes 0 "s1"
      (Done (JObj [("stems", JObj [("vocals", JStr " UklGRg== ");
                                   ("notes", JNum 5)])])) ∅
    = (Ok (JObj items), lib')
    ∧ get_library_item Sample.b64encode "s1" lib'
      = (Ok (JObj (Dict.set items "stems" (JObj got))), lib')
    ∧ ∀ name, Dict.get got name
              = decoded Sample.text_bytes Sample.b64encode
                  (Dict.get [("vocals", JStr " UklGRg== "); ("notes", JNum 5)]
                     name).
Proof.
  refine (created_session_returns_its_stems
            Sample.isoformat Sample.b64encode Sample.text_bytes 0 "s1"
            [("stems", JObj [("vocals", JStr " UklGRg== "); ("notes", JNum 5)])]
            [("vocals", JStr " UklGRg== "); ("notes", JNum 5)] ∅
            eq_refl _ _ _ _ _ eq_refl).
  - discriminate.
  - intros name text Hin. sample_decodes Hin.
  - apply (bool_decide_unpack _). reflexivity.
  - repeat constructor.
  - repeat constructor.
Defined.

Lemma created_bundle_is_downloadable_witness :
  ∃ items lib' response,
    download_bundle "s1" ∅ = Raise (HTTPException 404 "Bundle not found")
    ∧ save_library Sample.isoformat Sample.text_bytes 0 "s1"
        (Done (JObj [("stems", JObj [("vocals", JStr "UklGRg==")])])) ∅
      = (Ok (JObj items), lib')
    ∧ Dict.get items "bundle" = Some (JStr "/api/library/s1/bundle")
    ∧ download_bundle "s1" lib' = Ok response
    ∧ media_type response = "application/zip"
    ∧ download_name response = "s1.zip".
Proof.
  refine (created_bundle_is_downloadable
            Sample.isoformat Sample.text_bytes 0 "s1"
            [("stems", JObj [("vocals", JStr "UklGRg==")])]
            [("vocals", JStr "UklGRg==")] ∅
            eq_refl _ _ _ _ eq_refl).
  - discriminate.
  - intros name text Hin. sample_decodes Hin.
  - apply (bool_decide_unpack _). reflexivity.
  - repeat constructor.
Defined.

Lemma created_session_is_listed_witness :
  ∃ metadata lib' listed,
    save_library Sample.isoformat Sample.text_bytes 0 "s4"
      (Done (JObj [("stems", JObj [("vocals", JStr "UklGRg==")])]))
      Sample.shelf
    = (Ok metadata, lib')
    ∧ list_library Sample.py_lt_mixed lib' = Ok listed
    ∧ listed ≡ₚ metadata :: parsed_metadata Sample.shelf
    ∧ StronglySorted by_date listed
    ∧ created metadata = Sample.isoformat 0 +:+ "Z".
Proof.
  refine (created_session_is_listed
            Sample.isoformat Sample.text_bytes Sample.py_lt_mixed 0 "s4"
            [("stems", JObj [("vocals", JStr "UklGRg==")])]
            [("vocals", JStr "UklGRg==")] Sample.shelf
            eq_refl _ _ _ _ eq_refl _).
  - discriminate.
  - intros name text Hin. sample_decodes Hin.
  - apply (bool_decide_unpack _). reflexivity.
  - repeat constructor.
  - vm_compute. repeat constructor.
Defined.

Lemma failed_create_leaves_files_witness :
  ∃ files,
    save_library Sample.isoformat Sample.text_bytes 0 "s1"
      (Done (JObj [("stems", JObj [("vocals", JStr "UklGRg==");
                                   ("drums", JStr "data:audio/wav,AAAA");
                                   ("bass", JStr "UklGRg==")])])) ∅
    = (Raise (HTTPException 400
                ("Could not decode stem '" +:+ "drums" +:+ "': "
                 +:+ "Unsupported data URL format")),
       <["s1" := SessionDir None files None]> ∅)
    ∧ (∀ file, is_Some (files !! file)
         ↔ ∃ name' text', (name', JStr text') ∈ [("vocals", JStr "UklGRg==")]
                          ∧ file = name' +:+ ".wav").
Proof.
  refine (failed_create_leaves_files
            Sample.isoformat Sample.text_bytes 0 "s1"
            [("stems", JObj [("vocals", JStr "UklGRg==");
                             ("drums", JStr "data:audio/wav,AAAA");
                             ("bass", JStr "UklGRg==")])]
            [("vocals", JStr "UklGRg==")] "drums" "data:audio/wav,AAAA"
            "Unsupported data URL format" [("bass", JStr "UklGRg==")] ∅
            eq_refl _ _ eq_refl eq_refl eq_refl).
  - intros name text Hin. sample_decodes Hin.
  - repeat constructor.
Defined.

(** * Separation: the model cache, the files found, the upload *)

Section separation_runs.
Variable b64encode : bytes → string.
Variable ffmpeg_run : string → bytes → outcome bytes.
Variable Separator : string → outcome unit.
Variable separate_to_file : string → string → scratch → outcome scratch.
Variable open_elsewhere : string → bytes → outcome unit.
Implicit Types (st : orchestrator) (filename model : string) (tmp : scratch).

(** X15.  A model is constructed at most once.  After [get_separator]
    has returned for a model, the model is in the cache, nothing that
    was cached is lost, and a further [get_separator] for it returns
    without calling the constructor: whatever the constructor would do
    then, the result and the state are the same. *)
Theorem separator_is_constructed_once
    (Separator' : string → outcome unit) st model st1 :
  get_separator Separator model st = (Ok tt, st1) →
  model ∈ separator_cache st1
  ∧ separator_cache st ⊆ separator_cache st1
  ∧ calls st1 = calls st
  ∧ get_separator Separator' model st1 = (Ok tt, st1).
Proof.
  unfold get_separator, mbind, M_bind, bind, get_state.
  destruct (bool_decide (model ∈ separator_cache st)) eqn:Hin.
  - intros [= <-]. apply bool_decide_eq_true in Hin.
    split_and!; [done | done | done |]. by rewrite bool_decide_eq_true_2.
  - destruct (Separator model); [| done]. intros [= <-]. cbn.
    split_and!;
      [by apply elem_of_union_l, elem_of_singleton | apply union_subseteq_r
      | done |].
    rewrite bool_decide_eq_true_2; [done |].
    by apply elem_of_union_l, elem_of_singleton.
Qed.

Lemma get_separator_frame st model r st1 :
  get_separator Separator model st = (r, st1) →
  separator_cache st ⊆ separator_cache st1
  ∧ separator_cache st1 ⊆ separator_cache st ∪ {[model]}
  ∧ calls st1 = calls st.
Proof.
  unfold get_separator, mbind, M_bind, bind, get_state.
  destruct (bool_decide (model ∈ separator_cache st)).
  - intros [= _ <-]. split_and!; [done | apply union_subseteq_l | done].
  - destruct (Separator model); intros [= _ <-]; cbn.
    + split_and!; [apply union_subseteq_r | | done].
      by rewrite (comm_L (∪)).
    + split_and!; [done | apply union_subseteq_l | done].
Qed.

Lemma extract_audio_frame st filename upload r st1 :
  extract_audio ffmpeg_run open_elsewhere filename upload st = (r, st1) →
  separator_cache st1 = separator_cache st
  ∧ calls st `prefix_of` calls st1.
Proof.
  unfold extract_audio.
  destruct (input_file _ _ _) as [[input_path tmp]|exc];
    [| by intros [= _ <-]].
  destruct (is_video filename).
  - unfold mbind, M_bind, bind, log, modify.
    destruct (ffmpeg_run input_path upload); intros [= _ <-]; cbn;
      (split; [done | by apply prefix_app_r]).
  - by intros [= _ <-].
Qed.

(** X16.  What a separation request leaves behind, whether it succeeds
    or raises.  The cache keeps every model it had and gains at most
    the requested one (the default model when none is named), and the
    calls made are added after those made before. *)
Theorem separate_keeps_the_cache st filename upload (model : option string) :
  let m := default DEFAULT_MODEL model in
  let run := separate b64encode ffmpeg_run Separator separate_to_file
               open_elsewhere filename upload model st in
  separator_cache st ⊆ separator_cache run.2
  ∧ separator_cache run.2 ⊆ separator_cache st ∪ {[m]}
  ∧ calls st `prefix_of` calls run.2.
Proof.
  intros m run. subst run.
  destruct (nonempty filename) eqn:Hname; cycle 1.
  { unfold separate. rewrite Hname. cbn.
    split_and!; [done | apply union_subseteq_l | done]. }
  rewrite (separate_from_source _ _ _ _ _ _ _ _ _ Hname). fold m.
  destruct (extract_audio _ _ _ _ _) as [[[source tmp]|exc] st1] eqn:Hex;
    cbv beta iota zeta;
    apply extract_audio_frame in Hex as Hf; destruct Hf as [Hc1 Hl1].
  - destruct (get_separator Separator m st1) as [[[]|exc] st2] eqn:Hget;
      apply get_separator_frame in Hget as Hf; destruct Hf as (Hc2 & Hc2' & Hl2).
    + cbn [fst snd separator_cache calls]. rewrite Hc1 in Hc2, Hc2'.
      split_and!; [done | done | rewrite Hl2; by apply prefix_app_r].
    + cbn [fst snd]. rewrite Hc1 in Hc2, Hc2'.
      split_and!; [done | done | by rewrite Hl2].
  - cbn [fst snd]. rewrite Hc1.
    split_and!; [done | apply union_subseteq_l | done].
Qed.

Lemma collect_found tmp stems_dir names :
  Forall (λ stem_name,
            tmp !! join stems_dir (stem_name +:+ ".wav") ≠ Some Directory)
         names →
  collect b64encode tmp stems_dir names
  = Ok (found_stems b64encode tmp stems_dir names).
Proof.
  induction 1 as [|n names Hn _ IH]; [done |].
  unfold found_stems in *. cbn [collect omap list_omap].
  destruct (tmp !! join stems_dir (n +:+ ".wav")) as [[data|]|]; [| done | done].
  by rewrite IH.
Qed.

(** X17.  The response is complete.  When the source is in place, the
    model is available and its run leaves the stems directory, with no
    directory under an expected stem's file name and a file of at least
    one expected name, the response carries the model and, for every
    expected name whose file exists, in the order of [EXPECTED_STEMS],
    the payload of that file. *)
Theorem response_lists_the_files_found
    st filename upload (model : option string) source tmp0 st1 st2 tmp :
  nonempty filename = true →
  extract_audio ffmpeg_run open_elsewhere filename upload st
  = (Ok (source, tmp0), st1) →
  get_separator Separator (default DEFAULT_MODEL model) st1 = (Ok tt, st2) →
  separate_to_file (default DEFAULT_MODEL model) source tmp0 = Done tmp →
  is_Some (tmp !! path_stem filename) →
  Forall (λ stem_name,
            tmp !! join (path_stem filename) (stem_name +:+ ".wav")
            ≠ Some Directory) EXPECTED_STEMS →
  found_stems b64encode tmp (path_stem filename) EXPECTED_STEMS ≠ [] →
  (separate b64encode ffmpeg_run Separator separate_to_file open_elsewhere
     filename upload model st).1
  = Ok (JObj [("model", JStr (default DEFAULT_MODEL model));
              ("stems",
               JObj (found_stems b64encode tmp (path_stem filename)
                       EXPECTED_STEMS))]).
Proof.
  intros Hname Hex Hget Hsep [nd Hdir] Hfiles Hfound.
  rewrite (separate_from_source _ _ _ _ _ _ _ _ _ Hname).
  rewrite Hex. cbv beta iota zeta. rewrite Hget. cbn [fst].
  unfold separated. rewrite Hsep. unfold respond. rewrite Hdir.
  rewrite (collect_found _ _ _ Hfiles).
  by destruct (found_stems _ _ _ _).
Qed.
End separation_runs.

Section copying.
Implicit Types (rest buffer upload : bytes).

Lemma copy_chunks_all fuel size rest buffer :
  (0 < size)%nat → (length rest < fuel)%nat →
  copy_chunks fuel size rest buffer = Some (buffer ++ rest).
Proof.
  intros Hsize. revert rest buffer.
  induction fuel as [|fuel IH]; intros rest buffer Hfuel; [lia |].
  cbn [copy_chunks].
  destruct (take size rest) as [|b chunk] eqn:Htake.
  - apply take_nil_inv in Htake as [? | ->]; [lia |]. by rewrite app_nil_r.
  - rewrite IH.
    + by rewrite <- Htake, <- app_assoc, take_drop.
    + rewrite length_drop. destruct rest; [by rewrite take_nil in Htake |].
      cbn [length] in *. lia.
Qed.

(** X18.  The chunked copy of an upload writes the upload, whatever its
    length: reading 1 MiB at a time until a read returns nothing loses
    and repeats no byte, and ends. *)
Theorem stream_copy_is_identity upload :
  stream_copy_to_path upload = Some upload.
Proof.
  unfold stream_copy_to_path. rewrite copy_chunks_all; [done | | lia].
  unfold CHUNK. lia.
Qed.
End copying.

Section classification.
Implicit Types (s : string) (c : ascii) (l : list string).

Lemma rfind_dot_lower s : Str.rfind_dot (Str.lower s) = Str.rfind_dot s.
Proof.
  induction s as [|c s IH]; [done |]. cbn [Str.lower Str.rfind_dot].
  by rewrite IH, lower_char_dot.
Qed.

Lemma length_lower s : String.length (Str.lower s) = String.length s.
Proof. induction s as [|c s IH]; [done | cbn; by rewrite IH]. Qed.

Lemma substring_lower n m s :
  String.substring n m (Str.lower s) = Str.lower (String.substring n m s).
Proof.
  revert n m. induction s as [|c s IH]; intros [|n] [|m]; try done.
  - cbn. by rewrite IH.
  - cbn. by rewrite IH.
  - cbn. by rewrite IH.
Qed.

Lemma suffix_of_lower s :
  Path.suffix_of (Str.lower s) = Str.lower (Path.suffix_of s).
Proof.
  unfold Path.suffix_of. rewrite rfind_dot_lower, length_lower.
  destruct (Str.rfind_dot s) as [i|]; [| done].
  destruct (_ && _); [apply substring_lower | done].
Qed.

Lemma lower_char_slash c :
  Ascii.eqb (Str.lower_char c) "/" = Ascii.eqb c "/".
Proof. by destruct c as [[] [] [] [] [] [] [] []]. Qed.

Lemma split_lower s : Path.split (Str.lower s) = Str.lower <$> Path.split s.
Proof.
  induction s as [|c s IH]; [done |]. cbn [Str.lower Path.split].
  rewrite lower_char_slash, IH.
  destruct (Ascii.eqb c "/"); [done |]. by destruct (Path.split s).
Qed.

Lemma lower_is_dot s : String.eqb (Str.lower s) "." = String.eqb s ".".
Proof.
  destruct s as [|c [|c' s]]; [done | |];
    cbn [Str.lower String.eqb]; by rewrite lower_char_dot.
Qed.

Lemma parts_lower s : Path.parts (Str.lower s) = Str.lower <$> Path.parts s.
Proof.
  unfold Path.parts. rewrite split_lower.
  induction (Path.split s) as [|x l IH]; [done |].
  cbn [fmap list_fmap List.filter]. rewrite lower_is_dot.
  assert (nonempty (Str.lower x) = nonempty x) as -> by by destruct x.
  destruct (nonempty x && negb (String.eqb x ".")); cbn; by rewrite <- IH.
Qed.

Lemma name_lower s : Path.name (Str.lower s) = Str.lower (Path.name s).
Proof.
  unfold Path.name. rewrite parts_lower, fmap_last.
  by destruct (last (Path.parts s)).
Qed.

Lemma path_suffix_lower s : path_suffix (Str.lower s) = Str.lower (path_suffix s).
Proof. unfold path_suffix. by rewrite name_lower, suffix_of_lower. Qed.

(** X19.  Whether an upload is taken for a video does not depend on
    the case of the letters of its name, for a name that is one ASCII
    file name. *)
Theorem is_video_ignores_case filename :
  upload_name filename = true →
  is_video (Str.lower filename) = is_video filename.
Proof.
  intros _. unfold is_video. by rewrite path_suffix_lower, lower_idemp.
Qed.
End classification.

Lemma is_video_ignores_case_witness :
  is_video (Str.lower "Clip.MP4") = is_video "Clip.MP4".
Proof. exact (is_video_ignores_case "Clip.MP4" eq_refl). Defined.

Lemma separator_is_constructed_once_witness :
  let st1 := Orchestrator {["spleeter:2stems"]} [] in
  "spleeter:2stems" ∈ separator_cache st1
  ∧ separator_cache (Orchestrator ∅ []) ⊆ separator_cache st1
  ∧ calls st1 = calls (Orchestrator ∅ [])
  ∧ get_separator (λ _, Failed "out of memory") "spleeter:2stems" st1
    = (Ok tt, st1).
Proof.
  refine (separator_is_constructed_once Sample.Separator
            (λ _, Failed "out of memory") (Orchestrator ∅ [])
            "spleeter:2stems" (Orchestrator {["spleeter:2stems"]} []) _).
  unfold get_separator, mbind, M_bind, bind, get_state. cbn.
  by rewrite (right_id_L ∅ (∪)).
Defined.

Lemma response_lists_the_files_found_witness :
  (separate Sample.b64encode Sample.ffmpeg_run Sample.Separator
     Sample.separate_to_file Sample.open_elsewhere
     "song.mp3" [x00] None (Orchestrator ∅ [])).1
  = Ok (JObj [("model", JStr "spleeter:4stems");
              ("stems",
               JObj (found_stems Sample.b64encode
                       (<["song/drums.wav" := File [x02]]>
                          (<["song/vocals.wav" := File [x01]]>
                             (<["song" := Directory]>
                                {["song.mp3" := File [x00]]})))
                       "song" EXPECTED_STEMS))]).
Proof.
  refine (response_lists_the_files_found
            Sample.b64encode Sample.ffmpeg_run Sample.Separator
            Sample.separate_to_file Sample.open_elsewhere
            (Orchestrator ∅ []) "song.mp3" [x00] None
            "song.mp3" {["song.mp3" := File [x00]]} (Orchestrator ∅ [])
            (Orchestrator {["spleeter:4stems"]} []) _
            eq_refl eq_refl _ eq_refl _ _ _).
  - unfold get_separator, mbind, M_bind, bind, get_state. cbn.
    by rewrite (right_id_L ∅ (∪)).
  - by eexists.
  - repeat constructor; by vm_compute.
  - by vm_compute.
Defined.
